(** * basic_models.admin: admin mixins over a transactional record store

    A shallow embedding of [src/basic_models/admin.py].  The Python code is
    written against Django's ORM and admin; the embedding threads an explicit
    store (the table of the model, the request's message storage) through an
    exception-and-state monad, and models the few host calls the mixins make
    ([save], [delete], [select_for_update], [transaction.atomic],
    [message_user], [model_ngettext], the [%] operator on strings) next to
    the methods of the repository. *)

From stdpp Require Import base option list gmap strings pretty.
From Stdlib Require Import ZArith Ascii.

Local Open Scope string_scope.
Local Open Scope list_scope.

(** ** Records and the store *)

Definition User := string.

(** The columns of a row.  [extra] stands for every column of the concrete
    model that the mixins never name. *)
Record Fields := mkFields {
  is_active : bool;
  created_by : option User;
  updated_by : option User;
  created_at : option Z;
  updated_at : option Z;
  extra : string
}.

(** A model instance in memory: the primary key ([None] before the first
    save and after a delete) and the attribute values. *)
Record Obj := mkObj {
  pk : option Z;
  attrs : Fields
}.

Definition set_is_active (b : bool) (f : Fields) : Fields :=
  mkFields b (created_by f) (updated_by f) (created_at f) (updated_at f) (extra f).
Definition set_created_by (u : option User) (f : Fields) : Fields :=
  mkFields (is_active f) u (updated_by f) (created_at f) (updated_at f) (extra f).
Definition set_updated_by (u : option User) (f : Fields) : Fields :=
  mkFields (is_active f) (created_by f) u (created_at f) (updated_at f) (extra f).
Definition set_created_at (t : option Z) (f : Fields) : Fields :=
  mkFields (is_active f) (created_by f) (updated_by f) t (updated_at f) (extra f).
Definition set_updated_at (t : option Z) (f : Fields) : Fields :=
  mkFields (is_active f) (created_by f) (updated_by f) (created_at f) t (extra f).

Definition with_attrs (g : Fields → Fields) (o : Obj) : Obj :=
  mkObj (pk o) (g (attrs o)).
Definition with_pk (k : option Z) (o : Obj) : Obj := mkObj k (attrs o).

(** The table of the model, keyed by primary key. *)
Abbreviation Table := (gmap Z Fields).

Record State := mkState {
  db : Table;
  messages : list string;
  m2m_saved : nat
}.

Definition set_db (t : Table) (st : State) : State :=
  mkState t (messages st) (m2m_saved st).

Record Request := mkRequest { user : User }.

Record Options := mkOptions {
  verbose_name : string;
  verbose_name_plural : string
}.

Record ModelAdmin := mkModelAdmin { opts : Options }.

(** A queryset as the admin hands it to an action: the rows whose primary
    key is among the selected ones. *)
Definition QuerySet := list Z.

(** ** Exceptions and the monad *)

Inductive Exn :=
  | AssertionError
  | ValueError
  | KeyError
  | TypeError
  | DatabaseError
  | IntegrityError.

Inductive Outcome (A : Type) :=
  | Ret (a : A)
  | Raise (e : Exn).
Arguments Ret {A} a.
Arguments Raise {A} e.

Definition M (A : Type) : Type := State → Outcome A * State.

Definition ret {A} (a : A) : M A := λ st, (Ret a, st).
Definition raise {A} (e : Exn) : M A := λ st, (Raise e, st).
Definition bind {A B} (m : M A) (k : A → M B) : M B :=
  λ st, match m st with
        | (Ret a, st') => k a st'
        | (Raise e, st') => (Raise e, st')
        end.

Notation "'let!' x := m 'in' k" := (bind m (λ x, k))
  (at level 10, x name, m at level 100, k at level 200, only parsing).

(** [try: m except AssertionError: pass] *)
Definition except_AssertionError_pass (m : M unit) : M unit :=
  λ st, match m st with
        | (Raise AssertionError, st') => (Ret tt, st')
        | r => r
        end.

(** [@transaction.atomic]: when the body raises, the table goes back to
    what it was on entry and the exception goes on to the caller. *)
Definition atomic {A} (m : M A) : M A :=
  λ st, match m st with
        | (Ret a, st') => (Ret a, st')
        | (Raise e, st') => (Raise e, set_db (db st) st')
        end.

(** ** String formatting: [template % dict] *)

Inductive FmtArg :=
  | FStr (s : string)
  | FInt (n : Z).

Definition FmtDict := list (string * FmtArg).

Fixpoint dict_get (key : string) (d : FmtDict) : option FmtArg :=
  match d with
  | [] => None
  | (k, v) :: d' => if String.eqb k key then Some v else dict_get key d'
  end.

Inductive FmtMode :=
  | Lit
  | Pct
  | Key (acc : string)
  | Conv (key : string).

Definition is_char (c : ascii) (s : string) : bool :=
  String.eqb (String c EmptyString) s.

(** [%(key)s] is [str(value)]; [%(key)d] wants a number. *)
Definition convert (c : ascii) (v : FmtArg) : Exn + string :=
  if is_char c "s" then
    match v with
    | FStr s => inr s
    | FInt n => inr (pretty n)
    end
  else if is_char c "d" then
    match v with
    | FStr _ => inl TypeError
    | FInt n => inr (pretty n)
    end
  else inl ValueError.

Fixpoint percent_go (mode : FmtMode) (tpl : string) (d : FmtDict) : Exn + string :=
  match tpl with
  | EmptyString =>
      match mode with
      | Lit => inr EmptyString
      | _ => inl ValueError
      end
  | String c rest =>
      match mode with
      | Lit =>
          if is_char c "%" then percent_go Pct rest d
          else match percent_go Lit rest d with
               | inr out => inr (String c out)
               | inl e => inl e
               end
      | Pct =>
          if is_char c "(" then percent_go (Key EmptyString) rest d
          else if is_char c "%" then
            match percent_go Lit rest d with
            | inr out => inr (String c out)
            | inl e => inl e
            end
          else inl TypeError
      | Key acc =>
          if is_char c ")" then percent_go (Conv acc) rest d
          else percent_go (Key (acc +:+ String c EmptyString)) rest d
      | Conv key =>
          match dict_get key d with
          | None => inl KeyError
          | Some v =>
              match convert c v, percent_go Lit rest d with
              | inr s, inr out => inr (s +:+ out)
              | inl e, _ => inl e
              | _, inl e => inl e
              end
          end
      end
  end.

Definition percent (tpl : string) (d : FmtDict) : M string :=
  match percent_go Lit tpl d with
  | inr s => ret s
  | inl e => raise e
  end.

(** No catalogue is installed: [ugettext] gives back its message id and
    [ungettext] picks between the two forms on [n == 1]. *)
Definition ugettext (msgid : string) : string := msgid.

Definition ungettext (singular plural : string) (n : Z) : string :=
  if (n =? 1)%Z then singular else plural.

Definition model_ngettext (o : Options) (n : Z) : string :=
  ungettext (verbose_name o) (verbose_name_plural o) n.

Definition message_user (request : Request) (msg : string) : M unit :=
  λ st, (Ret tt, mkState (db st) (messages st ++ [msg]) (m2m_saved st)).

(** [for x in xs: body], with the local variables the body updates passed
    along as [v]. *)
Fixpoint for_loop {A V} (body : A → V → M V) (xs : list A) (v : V) : M V :=
  match xs with
  | [] => ret v
  | x :: xs' => let! v' := body x v in for_loop body xs' v'
  end.

Definition for_each {A} (body : A → M unit) (xs : list A) : M unit :=
  for_loop (λ x _, body x) xs tt.

(** ** The ORM calls *)

Definition column_names : list string :=
  ["is_active"; "created_by"; "updated_by"; "created_at"; "updated_at"; "extra"].

Definition copy_column (name : string) (src dst : Fields) : Fields :=
  if String.eqb name "is_active" then set_is_active (is_active src) dst
  else if String.eqb name "created_by" then set_created_by (created_by src) dst
  else if String.eqb name "updated_by" then set_updated_by (updated_by src) dst
  else if String.eqb name "created_at" then set_created_at (created_at src) dst
  else if String.eqb name "updated_at" then set_updated_at (updated_at src) dst
  else if String.eqb name "extra" then
    mkFields (is_active dst) (created_by dst) (updated_by dst)
             (created_at dst) (updated_at dst) (extra src)
  else dst.

Definition copy_columns (names : list string) (src dst : Fields) : Fields :=
  foldl (λ row name, copy_column name src row) dst names.

Definition is_column (name : string) : bool :=
  existsb (String.eqb name) column_names.

(** The key an insert without primary key gets. *)
Definition next_pk (t : Table) : Z :=
  (1 + map_fold (λ k _ m, Z.max k m) 0 t)%Z.

(** The instances a queryset loads: the rows of the table whose key is
    selected, each once, in the order the table gives them. *)
Definition rows_of (selected : list Z) (t : Table) : list Obj :=
  (λ kf, mkObj (Some kf.1) kf.2) <$> filter (λ kf, kf.1 ∈ selected) (map_to_list t).

Section Store.

(** What the store takes on a write: the constraints of the table and
    whatever a [save] overridden by the model checks.  A refused write
    raises; [IntegrityError] stands for the exception, whichever it is. *)
Variable db_accepts : Z → Fields → bool.

Definition db_write (k : Z) (row : Fields) : M unit :=
  λ st, if db_accepts k row
        then (Ret tt, set_db (<[k := row]> (db st)) st)
        else (Raise IntegrityError, st).

(** [obj.save(update_fields=...)].  With [update_fields] only the named
    columns of the row are written; without, the whole row is, and an
    object that has no primary key gets one. *)
Definition obj_save (o : Obj) (update_fields : option (list string)) : M Obj :=
  match update_fields with
  | Some [] => ret o
  | Some names =>
      if negb (forallb is_column names) then raise ValueError
      else match pk o with
           | None => raise ValueError
           | Some k =>
               λ st, match db st !! k with
                     | None => (Raise DatabaseError, st)
                     | Some row =>
                         (let! _ := db_write k (copy_columns names (attrs o) row) in
                          ret o) st
                     end
           end
  | None =>
      λ st, let k := default (next_pk (db st)) (pk o) in
            (let! _ := db_write k (attrs o) in ret (with_pk (Some k) o)) st
  end.

(** [obj.delete()]: asserts that the object has a primary key, removes
    the row and leaves the object without primary key. *)
Definition obj_delete (o : Obj) : M Obj :=
  match pk o with
  | None => raise AssertionError
  | Some k => λ st, (Ret (with_pk None o), set_db (delete k (db st)) st)
  end.

(** [queryset.select_for_update()], evaluated by the [for] statement. *)
Definition select_for_update (queryset : QuerySet) : M (list Obj) :=
  λ st, (Ret (rows_of queryset (db st)), st).

(** ** ActiveModelAdmin *)

Definition _set_objects_active (self : ModelAdmin) (request : Request)
    (queryset : QuerySet) (active : bool) : M unit :=
  atomic (
    let! objs := select_for_update queryset in
    let! count := for_loop (λ obj count,
               let obj := with_attrs (set_is_active active) obj in
               let! _ := obj_save obj (Some ["is_active"]) in
               ret (count + 1)%Z) objs 0%Z in
    let! msg := percent (ugettext "Successfully %(prefix)sactivated %(count)d %(items)s.")
             [("prefix", FStr (if active then "" else "de"));
              ("count", FInt count);
              ("items", FStr (model_ngettext (opts self) count))] in
    message_user request msg).

Definition activate_objects (self : ModelAdmin) (request : Request)
    (queryset : QuerySet) : M unit :=
  _set_objects_active self request queryset true.

Definition deactivate_objects (self : ModelAdmin) (request : Request)
    (queryset : QuerySet) : M unit :=
  _set_objects_active self request queryset false.

(** ** UserModelAdmin *)

(** [not instance.pk]: no key yet, or the key [0]. *)
Definition pk_is_falsy (k : option Z) : bool :=
  match k with
  | None => true
  | Some z => (z =? 0)%Z
  end.

Definition _update_instance (instance : Obj) (u : User) : Obj :=
  let instance :=
    if pk_is_falsy (pk instance)
    then with_attrs (set_created_by (Some u)) instance
    else instance in
  with_attrs (set_updated_by (Some u)) instance.

(** A bound form: [form.save(commit=False)] hands out the instance with
    the submitted values, unsaved. *)
Record Form := mkForm { form_instance : Obj }.

(** A bound formset: the new and changed instances, and the objects whose
    form was marked for deletion.  [deletes_on_save] is the host before
    Django 1.7, whose [formset.save(commit=False)] deletes those objects
    itself. *)
Record FormSet := mkFormSet {
  instances_of : list Obj;
  deleted_objects : list Obj;
  deletes_on_save : bool
}.

Fixpoint delete_all (objs : list Obj) : M (list Obj) :=
  match objs with
  | [] => ret []
  | o :: rest =>
      let! o' := obj_delete o in
      let! rest' := delete_all rest in
      ret (o' :: rest')
  end.

(** [formset.save(commit=False)] *)
Definition formset_save_uncommitted (formset : FormSet) : M (list Obj * FormSet) :=
  if deletes_on_save formset then
    let! gone := delete_all (deleted_objects formset) in
    ret (instances_of formset, mkFormSet (instances_of formset) gone true)
  else ret (instances_of formset, formset).

Definition save_m2m (formset : FormSet) : M unit :=
  λ st, (Ret tt, mkState (db st) (messages st) (S (m2m_saved st))).

Definition save_model (self : ModelAdmin) (request : Request) (obj : Obj)
    (form : Form) (change : bool) : M Obj :=
  let instance := form_instance form in
  let instance := _update_instance instance (user request) in
  let! instance := obj_save instance None in
  ret instance.

Definition save_formset (self : ModelAdmin) (request : Request) (form : Form)
    (formset : FormSet) (change : bool) : M unit :=
  let! r := formset_save_uncommitted formset in
  let instances := r.1 in
  let formset := r.2 in
  let! _ := except_AssertionError_pass
        (for_each (λ obj, let! _ := obj_delete obj in ret tt) (deleted_objects formset)) in
  let! _ := for_each (λ instance,
        let instance := _update_instance instance (user request) in
        let! _ := obj_save instance None in ret tt) instances in
  save_m2m formset.

End Store.

(** ** ActiveModelAdmin.get_actions *)

(** [actions] is an ordered dictionary from action name to action. *)
Definition dict_contains {V} (key : string) (d : list (string * V)) : bool :=
  existsb (λ kv, String.eqb kv.1 key) d.

(** [del d[key]] *)
Definition dict_del {V} (key : string) (d : list (string * V)) : Exn + list (string * V) :=
  if dict_contains key d
  then inr (filter (λ kv, kv.1 ≠ key) d)
  else inl KeyError.

Section Actions.

Context {Action : Type}.
(** [ModelAdmin.get_actions] and [ModelAdmin.has_delete_permission] of
    the host. *)
Variable super_get_actions : Request → list (string * Action).
Variable has_delete_permission : Request → bool.

Definition get_actions (request : Request) : Exn + list (string * Action) :=
  let actions := super_get_actions request in
  if negb (has_delete_permission request) then
    if dict_contains "delete_selected" actions then
      dict_del "delete_selected" actions
    else inr actions
  else inr actions.

End Actions.

(** The [actions] attribute of [ActiveModelAdmin]. *)
Definition ActiveModelAdmin_actions : list string :=
  ["activate_objects"; "deactivate_objects"].

(** ** OneActiveAdmin.duplicate *)

Section OneActive.

(** [object.clone()]: the record type defines it, the admin does not. *)
Variable clone : Obj → M Obj.

(** [for object in queryset], evaluated once, before the first turn. *)
Definition iterate (queryset : QuerySet) : M (list Obj) :=
  λ st, (Ret (rows_of queryset (db st)), st).

Definition duplicate (self : ModelAdmin) (request : Request)
    (queryset : QuerySet) : M unit :=
  let! objs := iterate queryset in
  for_each (λ object, let! _ := clone object in ret tt) objs.

End OneActive.

(** ** Vocabulary of the statements *)

(** What one turn of the loop of [_set_objects_active] does. *)
Definition activation_step (db_accepts : Z → Fields → bool) (active : bool)
    (obj : Obj) (count : Z) : M Z :=
  let obj := with_attrs (set_is_active active) obj in
  let! _ := obj_save db_accepts obj (Some ["is_active"]) in
  ret (count + 1)%Z.

(** The table after the rows of the keys [ks] got their flag set. *)
Definition bulk_set (active : bool) (ks : list Z) (t : Table) : Table :=
  foldl (λ t k, alter (set_is_active active) k t) t ks.

(** The message of [_set_objects_active] for [count] records. *)
Definition status_message (self : ModelAdmin) (active : bool) (count : Z) : string :=
  "Successfully " +:+ (if active then "" else "de") +:+ "activated "
    +:+ pretty count +:+ " " +:+ model_ngettext (opts self) count +:+ ".".

(** An object the loop can save: it has a key, the row is there and the
    store takes the row with the new flag. *)
Definition savable (db_accepts : Z → Fields → bool) (active : bool)
    (t : Table) (o : Obj) : Prop :=
  ∃ k row, pk o = Some k ∧ t !! k = Some row
           ∧ db_accepts k (set_is_active active row) = true.

(** The state a successful run of [_set_objects_active] leaves. *)
Definition toggled (self : ModelAdmin) (queryset : QuerySet) (active : bool)
    (st : State) : State :=
  mkState (bulk_set active (omap pk (rows_of queryset (db st))) (db st))
    (messages st ++
       [status_message self active (Z.of_nat (length (rows_of queryset (db st))))])
    (m2m_saved st).

(** A selection of the table: distinct keys of rows that are there. *)
Definition selection_of (t : Table) (selected : QuerySet) : Prop :=
  NoDup selected ∧ ∀ k, k ∈ selected → is_Some (t !! k).

(** One turn of the two loops of [save_formset]. *)
Definition delete_step (obj : Obj) : M unit :=
  let! _ := obj_delete obj in ret tt.

Definition save_step (db_accepts : Z → Fields → bool) (u : User) (instance : Obj) : M unit :=
  let instance := _update_instance instance u in
  let! _ := obj_save db_accepts instance None in ret tt.

(** The table after the full saves of [instances], stamped for [u], in
    order; an instance without key takes the next one. *)
Definition stamped_rows (u : User) (instances : list Obj) (t : Table) : Table :=
  foldl (λ t i, <[default (next_pk t) (pk i) := attrs (_update_instance i u)]> t)
        t instances.

(** The table after the rows of [objs] are deleted. *)
Definition without_rows (objs : list Obj) (t : Table) : Table :=
  foldl (λ t k, delete k t) t (omap pk objs).

(** The objects in front of the first one that has no key. *)
Fixpoint deletable_prefix (objs : list Obj) : list Obj :=
  match objs with
  | [] => []
  | o :: rest =>
      match pk o with
      | Some _ => o :: deletable_prefix rest
      | None => []
      end
  end.

(** The two entry points of the save hook, as the host calls them. *)
Inductive SaveCall :=
  | SaveModel (obj : Obj) (form : Form) (change : bool)
  | SaveFormset (form : Form) (formset : FormSet) (change : bool).

Definition save_hook (db_accepts : Z → Fields → bool) (self : ModelAdmin)
    (request : Request) (call : SaveCall) : M unit :=
  match call with
  | SaveModel obj form change =>
      let! _ := save_model db_accepts self request obj form change in ret tt
  | SaveFormset form formset change =>
      save_formset db_accepts self request form formset change
  end.


Definition deleted_by (call : SaveCall) : list Obj :=
  match call with
  | SaveModel _ _ _ => []
  | SaveFormset _ formset _ => deleted_objects formset
  end.

(** The fields the save hook writes for the instance [i] when [u] acts:
    [updated_by] is [u]; [created_by] is [u] for an instance without
    primary key or with the key 0, and what the instance holds otherwise;
    the other fields are those of the instance. *)
Definition stamped_fields (u : User) (i : Obj) : Fields :=
  mkFields (is_active (attrs i))
    (match pk i with
     | None => Some u
     | Some k => if (k =? 0)%Z then Some u else created_by (attrs i)
     end)
    (Some u) (created_at (attrs i)) (updated_at (attrs i)) (extra (attrs i)).

(** ** A store to run the code on *)

Definition row_of (active : bool) (name : string) : Fields :=
  mkFields active None None None None name.

Definition scenario : State :=
  mkState (<[1%Z := row_of false "A"]> (<[2%Z := row_of true "B"]>
          (<[3%Z := row_of false "C"]> (<[4%Z := row_of false "D"]> ∅)))) [] 0.

Definition accept_all : Z → Fields → bool := λ _ _, true.

Definition things_admin : ModelAdmin := mkModelAdmin (mkOptions "thing" "things").

Definition operator : Request := mkRequest "bob".

(** A formset that adds a record, changes record 2 (which alice created)
    and marks records 1 and 3 for deletion. *)
Definition sample_instances : list Obj :=
  [mkObj None (row_of true "N");
   mkObj (Some 2%Z) (mkFields false (Some "alice") (Some "alice") None None "B2")].

Definition sample_marked : list Obj :=
  [mkObj (Some 1%Z) (row_of false "A"); mkObj (Some 3%Z) (row_of false "C")].

Definition sample_formset (deletes_on_save : bool) : FormSet :=
  mkFormSet sample_instances sample_marked deletes_on_save.

Definition sample_form : Form := mkForm (mkObj (Some 4%Z) (row_of false "D")).

(** A [clone] that saves a copy under a new key, and that the record
    with key 2 refuses. *)
Definition sample_clone (o : Obj) : M Obj :=
  if bool_decide (pk o = Some 2%Z) then raise ValueError
  else obj_save accept_all (with_pk None o) None.

(** * Properties *)

(** ** Records, state and the monad *)

Lemma set_is_active_idem b f :
  set_is_active b (set_is_active b f) = set_is_active b f.
Proof. reflexivity. Qed.

Lemma set_db_same st : set_db (db st) st = st.
Proof. by destruct st. Qed.

Lemma set_db_twice t t' st : set_db t' (set_db t st) = set_db t' st.
Proof. reflexivity. Qed.

Lemma outcome_cases {A} (r : Outcome A * State) :
  (∃ a st, r = (Ret a, st)) ∨ (∃ e st, r = (Raise e, st)).
Proof. destruct r as [[a|e] st]; eauto. Qed.

(** ** What the queryset yields *)

Lemma elem_of_rows_of selected (t : Table) o :
  o ∈ rows_of selected t ↔
  ∃ k row, o = mkObj (Some k) row ∧ k ∈ selected ∧ t !! k = Some row.
Proof.
  unfold rows_of. rewrite list_elem_of_fmap. split.
  - intros ([k row] & -> & [Hsel Hin]%list_elem_of_filter).
    apply elem_of_map_to_list in Hin. by exists k, row.
  - intros (k & row & -> & Hsel & Hrow). exists (k, row). split; [done|].
    apply list_elem_of_filter. split; [done|]. by apply elem_of_map_to_list.
Qed.

Lemma keys_of_loaded (l : list (Z * Fields)) :
  omap pk ((λ kf, mkObj (Some kf.1) kf.2) <$> l) = l.*1.
Proof.
  induction l as [|[k row] l IH]; [done|].
  rewrite !fmap_cons. cbn [omap list_omap pk]. by rewrite IH.
Qed.

Lemma keys_rows_of selected (t : Table) :
  omap pk (rows_of selected t) =
    (filter (λ kf, kf.1 ∈ selected) (map_to_list t)).*1.
Proof. apply keys_of_loaded. Qed.

Lemma elem_of_keys_rows_of selected (t : Table) k :
  k ∈ omap pk (rows_of selected t) ↔ k ∈ selected ∧ is_Some (t !! k).
Proof.
  rewrite list_elem_of_omap. split.
  - intros (o & (k' & row & -> & Hsel & Hrow)%elem_of_rows_of & Hpk).
    simpl in Hpk. injection Hpk as ->. eauto.
  - intros [Hsel [row Hrow]]. exists (mkObj (Some k) row). split; [|done].
    apply elem_of_rows_of. by exists k, row.
Qed.

Lemma NoDup_keys_rows_of selected (t : Table) :
  NoDup (omap pk (rows_of selected t)).
Proof.
  rewrite keys_rows_of. eapply sublist_NoDup.
  - apply (NoDup_fst_map_to_list t).
  - apply fmap_sublist, sublist_filter.
Qed.

Lemma length_keys_rows_of selected (t : Table) :
  length (omap pk (rows_of selected t)) = length (rows_of selected t).
Proof. rewrite keys_rows_of. unfold rows_of. by rewrite !length_fmap. Qed.

(** The number of rows a queryset yields depends on which keys the table
    has, not on what the rows hold. *)
Lemma length_rows_of_same_keys selected (t t' : Table) :
  (∀ k, is_Some (t !! k) ↔ is_Some (t' !! k)) →
  length (rows_of selected t) = length (rows_of selected t').
Proof.
  intros Hdom. rewrite <-!length_keys_rows_of.
  apply Permutation_length, NoDup_Permutation; try apply NoDup_keys_rows_of.
  intros k. rewrite !elem_of_keys_rows_of. by rewrite Hdom.
Qed.

Lemma length_rows_of_selection selected (t : Table) :
  NoDup selected → (∀ k, k ∈ selected → is_Some (t !! k)) →
  length (rows_of selected t) = length selected.
Proof.
  intros Hnd Hin. rewrite <-length_keys_rows_of.
  apply Permutation_length, NoDup_Permutation;
    [apply NoDup_keys_rows_of | done |].
  intros k. rewrite elem_of_keys_rows_of. split; [tauto | auto].
Qed.

Lemma rows_of_nil (t : Table) : rows_of [] t = [].
Proof.
  unfold rows_of. induction (map_to_list t) as [|kf l IH]; [done|].
  by rewrite filter_cons_False by apply not_elem_of_nil.
Qed.

(** ** The message *)

Lemma percent_status_message (self : ModelAdmin) (active : bool) (count : Z)
    (st : State) :
  percent (ugettext "Successfully %(prefix)sactivated %(count)d %(items)s.")
    [("prefix", FStr (if active then "" else "de"));
     ("count", FInt count);
     ("items", FStr (model_ngettext (opts self) count))] st
  = (Ret (status_message self active count), st).
Proof. by destruct active. Qed.

Lemma lookup_bulk_set active ks : ∀ (t : Table) k,
  bulk_set active ks t !! k =
    if decide (k ∈ ks) then set_is_active active <$> t !! k else t !! k.
Proof.
  induction ks as [|k0 ks IH]; intros t k.
  - by rewrite decide_False by apply not_elem_of_nil.
  - unfold bulk_set in *. cbn [foldl]. rewrite IH, lookup_alter.
    destruct (decide (k ∈ ks)) as [Hin|Hin], (decide (k0 = k)) as [->|Hne].
    + rewrite decide_True by (by left). destruct (t !! k); by simpl.
    + by rewrite decide_True by (by right).
    + by rewrite decide_True by (by left).
    + rewrite decide_False; [done|]. by intros [?|?]%elem_of_cons.
Qed.

Lemma lookup_toggled self queryset active st k :
  db (toggled self queryset active st) !! k =
    if decide (k ∈ queryset) then set_is_active active <$> db st !! k
    else db st !! k.
Proof.
  unfold toggled. cbn [db]. rewrite lookup_bulk_set.
  destruct (decide (k ∈ queryset)) as [Hin|Hin].
  - destruct (db st !! k) as [row|] eqn:Hrow.
    + rewrite decide_True; [done|]. apply elem_of_keys_rows_of. eauto.
    + by case_decide.
  - rewrite decide_False; [done|]. rewrite elem_of_keys_rows_of. tauto.
Qed.

(** ** The loop of the toggle *)

Section StoreFacts.

Variable db_accepts : Z → Fields → bool.

Lemma activation_step_unfold active o c st :
  activation_step db_accepts active o c st =
    match pk o with
    | None => (Raise ValueError, st)
    | Some k =>
        match db st !! k with
        | None => (Raise DatabaseError, st)
        | Some row =>
            if db_accepts k (set_is_active active row)
            then (Ret (c + 1)%Z, set_db (<[k := set_is_active active row]> (db st)) st)
            else (Raise IntegrityError, st)
        end
    end.
Proof.
  unfold activation_step, obj_save, bind, db_write, raise, ret.
  destruct o as [[k|] a]; simpl; [|done].
  destruct (db st !! k) as [row|]; [|done].
  change (copy_column "is_active" (set_is_active active a) row)
    with (set_is_active active row).
  by destruct (db_accepts k (set_is_active active row)).
Qed.

Lemma savable_insert active t k row o :
  t !! k = Some row →
  savable db_accepts active (<[k := set_is_active active row]> t) o ↔ savable db_accepts active t o.
Proof.
  intros Hk. split; intros (k' & row' & Hpk & Hrow & Hacc).
  - destruct (decide (k = k')) as [<-|Hne].
    + rewrite lookup_insert_eq in Hrow. injection Hrow as <-.
      exists k, row. by rewrite set_is_active_idem in Hacc.
    + rewrite lookup_insert_ne in Hrow by done. by exists k', row'.
  - destruct (decide (k = k')) as [<-|Hne].
    + exists k, (set_is_active active row). rewrite lookup_insert_eq.
      rewrite set_is_active_idem. by simplify_eq.
    + exists k', row'. by rewrite lookup_insert_ne.
Qed.

Lemma insert_is_alter active (t : Table) k row :
  t !! k = Some row →
  <[k := set_is_active active row]> t = alter (set_is_active active) k t.
Proof.
  intros Hk. apply map_eq. intros j. rewrite lookup_alter, lookup_insert.
  case_decide; [subst; by rewrite Hk | done].
Qed.

(** The loop succeeds exactly on savable objects, and then it has set the
    flag of their rows and counted them. *)
Lemma loop_ret_inv active objs : ∀ c st c' st',
  for_loop (activation_step db_accepts active) objs c st = (Ret c', st') →
  Forall (savable db_accepts active (db st)) objs.
Proof.
  induction objs as [|o objs IH]; intros c st c' st' Hrun; [constructor|].
  simpl in Hrun. unfold bind in Hrun. rewrite activation_step_unfold in Hrun.
  destruct (pk o) as [k|] eqn:Hpk; [|done].
  destruct (db st !! k) as [row|] eqn:Hrow; [|done].
  destruct (db_accepts k (set_is_active active row)) eqn:Hacc; [|done].
  apply IH in Hrun. simpl in Hrun. constructor.
  - by exists k, row.
  - eapply Forall_impl; [exact Hrun|]. intros o'. by apply savable_insert.
Qed.

Lemma loop_total active objs : ∀ c st,
  Forall (savable db_accepts active (db st)) objs →
  for_loop (activation_step db_accepts active) objs c st =
    (Ret (c + Z.of_nat (length objs))%Z,
     set_db (bulk_set active (omap pk objs) (db st)) st).
Proof.
  induction objs as [|o objs IH]; intros c st Hall.
  - simpl. unfold ret, bulk_set. simpl. by rewrite Z.add_0_r, set_db_same.
  - apply Forall_cons in Hall as [(k & row & Hpk & Hrow & Hacc) Hall].
    cbn [for_loop]. unfold bind. rewrite activation_step_unfold, Hpk, Hrow, Hacc.
    rewrite IH.
    + cbn [omap list_omap]. rewrite Hpk. cbn [db set_db].
      rewrite set_db_twice. unfold bulk_set. cbn [foldl].
      rewrite (insert_is_alter _ _ _ _ Hrow), length_cons.
      do 2 f_equal. lia.
    + cbn [db set_db]. eapply Forall_impl; [exact Hall|].
      intros o'. by apply savable_insert.
Qed.

(** Whatever the outcome, the loop writes to the table only. *)
Lemma loop_frame active objs : ∀ c st r st',
  for_loop (activation_step db_accepts active) objs c st = (r, st') →
  messages st' = messages st ∧ m2m_saved st' = m2m_saved st.
Proof.
  induction objs as [|o objs IH]; intros c st r st' Hrun.
  - by injection Hrun as <- <-.
  - simpl in Hrun. unfold bind in Hrun. rewrite activation_step_unfold in Hrun.
    destruct (pk o) as [k|]; [|by injection Hrun as <- <-].
    destruct (db st !! k) as [row|]; [|by injection Hrun as <- <-].
    destruct (db_accepts k (set_is_active active row));
      [|by injection Hrun as <- <-].
    by apply IH in Hrun.
Qed.

(** *** [_set_objects_active] as a whole *)

Lemma set_objects_active_unfold self request queryset active st :
  _set_objects_active db_accepts self request queryset active st =
    match for_loop (activation_step db_accepts active)
                   (rows_of queryset (db st)) 0%Z st with
    | (Ret count, st') =>
        (Ret tt, mkState (db st')
                   (messages st' ++ [status_message self active count])
                   (m2m_saved st'))
    | (Raise e, st') => (Raise e, set_db (db st) st')
    end.
Proof.
  unfold _set_objects_active, atomic, bind, select_for_update.
  change (λ obj count, _) with (activation_step db_accepts active).
  destruct (for_loop _ _ _ _) as [[count|e] st']; [|done].
  by rewrite percent_status_message.
Qed.

Lemma set_objects_active_ret self request queryset active st :
  Forall (savable db_accepts active (db st)) (rows_of queryset (db st)) →
  _set_objects_active db_accepts self request queryset active st =
    (Ret tt, toggled self queryset active st).
Proof.
  intros Hall. rewrite set_objects_active_unfold, loop_total by done.
  by rewrite Z.add_0_l.
Qed.

Lemma set_objects_active_ret_inv self request queryset active st u st' :
  _set_objects_active db_accepts self request queryset active st = (Ret u, st') →
  Forall (savable db_accepts active (db st)) (rows_of queryset (db st))
  ∧ st' = toggled self queryset active st.
Proof.
  intros Hrun. assert (Hall : Forall (savable db_accepts active (db st)) (rows_of queryset (db st))).
  { rewrite set_objects_active_unfold in Hrun.
    destruct (for_loop _ _ _ _) as [[count|e] st1] eqn:Hloop; [|done].
    by eapply loop_ret_inv. }
  split; [done|]. rewrite set_objects_active_ret in Hrun by done.
  by injection Hrun as <-.
Qed.

Lemma set_objects_active_raise self request queryset active st :
  ¬ Forall (savable db_accepts active (db st)) (rows_of queryset (db st)) →
  ∃ e, _set_objects_active db_accepts self request queryset active st = (Raise e, st).
Proof.
  intros Hnot. rewrite set_objects_active_unfold.
  destruct (for_loop _ _ _ _) as [[count|e] st1] eqn:Hloop.
  - destruct Hnot. by eapply loop_ret_inv.
  - exists e. apply loop_frame in Hloop as [Hm Hs]. f_equal.
    destruct st, st1; simpl in *; by subst.
Qed.

Lemma set_objects_active_raise_inv self request queryset active st e st' :
  _set_objects_active db_accepts self request queryset active st = (Raise e, st') →
  st' = st.
Proof.
  rewrite set_objects_active_unfold.
  destruct (for_loop _ _ _ _) as [[count|e1] st1] eqn:Hloop; [done|].
  intros [= _ <-]. apply loop_frame in Hloop as [Hm Hs].
  destruct st, st1; simpl in *; by subst.
Qed.

End StoreFacts.

(** ** The bulk toggle *)

(** The loop writes as it goes: when the store refuses record 3, records 1
    and 2 are written already, and it is [atomic] that takes the table
    back. *)
Example loop_writes_before_it_fails :
  let refuse_3 := λ (k : Z) (_ : Fields), negb (k =? 3)%Z in
  let r := for_loop (activation_step refuse_3 true)
             [mkObj (Some 1%Z) (row_of false "A"); mkObj (Some 3%Z) (row_of false "C")]
             0%Z scenario in
  r.1 = Raise IntegrityError
  ∧ is_active <$> db r.2 !! 1%Z = Some true
  ∧ is_active <$> db scenario !! 1%Z = Some false.
Proof. vm_compute. repeat split; reflexivity. Qed.

(** C1. After a successful toggle of the selection [selected] to the state
    [active], every record of the selection has [is_active = active], and
    every record outside the selection is what it was, in all fields. *)
Theorem toggle_sets_selection db_accepts self request selected active st st' :
  _set_objects_active db_accepts self request selected active st = (Ret tt, st') →
  (∀ k row, k ∈ selected → db st !! k = Some row →
     ∃ row', db st' !! k = Some row' ∧ is_active row' = active)
  ∧ (∀ k, k ∉ selected → db st' !! k = db st !! k).
Proof.
  intros [_ ->]%set_objects_active_ret_inv. split.
  - intros k row Hin Hrow. exists (set_is_active active row).
    by rewrite lookup_toggled, decide_True, Hrow.
  - intros k Hout. by rewrite lookup_toggled, decide_False.
Qed.

Lemma toggle_sets_selection_witness :
  let st' := (_set_objects_active accept_all things_admin operator
                [1; 2; 3]%Z true scenario).2 in
  (∀ k row, k ∈ [1; 2; 3]%Z → db scenario !! k = Some row →
     ∃ row', db st' !! k = Some row' ∧ is_active row' = true)
  ∧ (∀ k, k ∉ [1; 2; 3]%Z → db st' !! k = db scenario !! k).
Proof.
  apply (toggle_sets_selection accept_all things_admin operator
           [1; 2; 3]%Z true scenario).
  vm_compute. reflexivity.
Defined.

(** C2. If the store refuses to persist a single record of the selection,
    the toggle raises and leaves the state it found: no [is_active] value
    has changed, what the loop wrote before is rolled back, and no message
    reports a success. *)
Theorem toggle_all_or_nothing db_accepts self request selected active st k row :
  k ∈ selected →
  db st !! k = Some row →
  db_accepts k (set_is_active active row) = false →
  ∃ e, _set_objects_active db_accepts self request selected active st = (Raise e, st).
Proof.
  intros Hin Hrow Hrej. apply set_objects_active_raise. intros Hall.
  rewrite Forall_forall in Hall.
  destruct (Hall (mkObj (Some k) row)) as (k' & row' & Hpk & Hrow' & Hacc).
  { apply elem_of_rows_of. by exists k, row. }
  simpl in Hpk. injection Hpk as <-. congruence.
Qed.

Lemma toggle_all_or_nothing_witness :
  ∃ e, _set_objects_active (λ k _, negb (k =? 3)%Z) things_admin operator
         [1; 2; 3]%Z true scenario = (Raise e, scenario).
Proof.
  apply (toggle_all_or_nothing (λ k _, negb (k =? 3)%Z) things_admin operator
           [1; 2; 3]%Z true scenario 3%Z (row_of false "C")).
  - vm_compute. do 2 right. left.
  - vm_compute. reflexivity.
  - vm_compute. reflexivity.
Defined.

(** A second run with the same target finds every row savable again, and
    writes what is there already. *)
Lemma toggle_again db_accepts self request selected active st st1 :
  _set_objects_active db_accepts self request selected active st = (Ret tt, st1) →
  ∃ st2,
    _set_objects_active db_accepts self request selected active st1 = (Ret tt, st2)
    ∧ db st2 = db st1
    ∧ messages st2 = messages st1 ++
        [status_message self active (Z.of_nat (length (rows_of selected (db st))))].
Proof.
  intros [Hall ->]%set_objects_active_ret_inv.
  rewrite Forall_forall in Hall.
  exists (toggled self selected active (toggled self selected active st)).
  split; [|split].
  - apply set_objects_active_ret, Forall_forall.
    intros o (k & row1 & -> & Hin & Hrow1)%elem_of_rows_of.
    rewrite lookup_toggled, decide_True in Hrow1 by done.
    destruct (db st !! k) as [row0|] eqn:Hrow0; [|done].
    injection Hrow1 as <-.
    destruct (Hall (mkObj (Some k) row0)) as (k' & row' & Hpk & Hrow' & Hacc).
    { apply elem_of_rows_of. by exists k, row0. }
    simpl in Hpk. injection Hpk as <-.
    exists k, (set_is_active active row0). split; [done|]. split.
    + by rewrite lookup_toggled, decide_True, Hrow0.
    + rewrite set_is_active_idem. congruence.
  - apply map_eq. intros k. rewrite !lookup_toggled.
    destruct (decide (k ∈ selected)); [|done]. by destruct (db st !! k).
  - cbn [toggled messages db].
    set (t1 := bulk_set active (omap pk (rows_of selected (db st))) (db st)).
    assert (length (rows_of selected t1) = length (rows_of selected (db st)))
      as ->; [|done].
    apply length_rows_of_same_keys. intros k. unfold t1.
    rewrite lookup_bulk_set. case_decide; [|done]. by rewrite fmap_is_Some.
Qed.

(** C3. The toggle is idempotent: on a selection of the store, a run that
    succeeds reports the count [|selected|], and a second run with the
    same target succeeds as well, leaves the table as the first run left
    it and reports the same count. *)
Theorem toggle_idempotent db_accepts self request selected active st st1 :
  selection_of (db st) selected →
  _set_objects_active db_accepts self request selected active st = (Ret tt, st1) →
  messages st1 = messages st ++
    [status_message self active (Z.of_nat (length selected))]
  ∧ ∃ st2,
      _set_objects_active db_accepts self request selected active st1 = (Ret tt, st2)
      ∧ db st2 = db st1
      ∧ messages st2 = messages st1 ++
          [status_message self active (Z.of_nat (length selected))].
Proof.
  intros [Hnd Hin] Hrun.
  pose proof (length_rows_of_selection selected (db st) Hnd Hin) as Hlen.
  destruct (toggle_again _ _ _ _ _ _ _ Hrun) as (st2 & Hrun2 & Hdb & Hmsg).
  apply set_objects_active_ret_inv in Hrun as [_ ->].
  rewrite Hlen in Hmsg. split; [|by eauto].
  cbn [toggled messages]. by rewrite Hlen.
Qed.

Lemma toggle_idempotent_witness :
  let run := _set_objects_active accept_all things_admin operator [1; 2; 3]%Z true in
  messages (run scenario).2 = messages scenario ++
    [status_message things_admin true (Z.of_nat (length [1; 2; 3]%Z))]
  ∧ ∃ st2,
      run (run scenario).2 = (Ret tt, st2)
      ∧ db st2 = db (run scenario).2
      ∧ messages st2 = messages (run scenario).2 ++
          [status_message things_admin true (Z.of_nat (length [1; 2; 3]%Z))].
Proof.
  apply (toggle_idempotent accept_all things_admin operator [1; 2; 3]%Z true scenario).
  - split.
    + apply (bool_decide_unpack _). vm_compute. exact I.
    + apply Forall_forall. repeat constructor; vm_compute; eexists; reflexivity.
  - vm_compute. reflexivity.
Defined.

(** C4, as stated: a toggle followed by its inverse gives every record its
    original [is_active] back.  It does not: record 2 of the scenario is
    active before, and inactive after activating and deactivating the
    selection. *)
Lemma inverse_toggle_counterexample :
  let activate := _set_objects_active accept_all things_admin operator [1; 2; 3]%Z true in
  let deactivate := _set_objects_active accept_all things_admin operator [1; 2; 3]%Z false in
  let st1 := (activate scenario).2 in
  let st2 := (deactivate st1).2 in
  activate scenario = (Ret tt, st1)
  ∧ deactivate st1 = (Ret tt, st2)
  ∧ is_active <$> db scenario !! 2%Z = Some true
  ∧ is_active <$> db st2 !! 2%Z = Some false.
Proof. vm_compute. repeat split; reflexivity. Qed.

(** C4, amended. A toggle of the selection to [active] followed by the
    toggle to [negb active] leaves every selected record with
    [is_active = negb active] and its other fields as they were, and every
    other record as it was: the original state is back for the records
    outside the selection and for the selected ones that had
    [is_active = negb active] to begin with. *)
Theorem toggle_round_trip db_accepts self request selected active st st1 st2 :
  _set_objects_active db_accepts self request selected active st = (Ret tt, st1) →
  _set_objects_active db_accepts self request selected (negb active) st1 = (Ret tt, st2) →
  ∀ k row, db st !! k = Some row →
    (k ∈ selected → db st2 !! k = Some (set_is_active (negb active) row))
    ∧ (k ∉ selected ∨ is_active row = negb active → db st2 !! k = Some row).
Proof.
  intros [_ ->]%set_objects_active_ret_inv [_ ->]%set_objects_active_ret_inv.
  intros k row Hrow. rewrite !lookup_toggled, Hrow.
  destruct (decide (k ∈ selected)) as [Hin|Hout]; split; try done.
  intros [?|<-]; [done|]. by destruct row.
Qed.

Lemma toggle_round_trip_witness :
  let st1 := (_set_objects_active accept_all things_admin operator
                [1; 2; 3]%Z true scenario).2 in
  let st2 := (_set_objects_active accept_all things_admin operator
                [1; 2; 3]%Z false st1).2 in
  (1%Z ∈ [1; 2; 3]%Z → db st2 !! 1%Z = Some (set_is_active (negb true) (row_of false "A")))
  ∧ (1%Z ∉ [1; 2; 3]%Z ∨ is_active (row_of false "A") = negb true →
     db st2 !! 1%Z = Some (row_of false "A")).
Proof.
  intros st1 st2.
  apply (toggle_round_trip accept_all things_admin operator [1; 2; 3]%Z true
           scenario st1 st2).
  - vm_compute. reflexivity.
  - vm_compute. reflexivity.
  - vm_compute. reflexivity.
Defined.

(** C5. The toggle of the empty selection changes no record and reports
    the count 0 in its message. *)
Theorem toggle_empty_selection db_accepts self request active st :
  _set_objects_active db_accepts self request [] active st =
    (Ret tt, mkState (db st) (messages st ++ [status_message self active 0]) (m2m_saved st))
  ∧ status_message self active 0 =
      "Successfully " +:+ (if active then "" else "de") +:+ "activated 0 "
        +:+ verbose_name_plural (opts self) +:+ ".".
Proof.
  split; [|done].
  rewrite set_objects_active_ret; unfold toggled; rewrite rows_of_nil; [done|].
  constructor.
Qed.

(** C6. The loop of the toggle runs [activation_step] on each record the
    queryset loads, and a step that returns has persisted [is_active] and
    nothing else: whatever the object holds in memory, the row it leaves
    is the row that was there with the new flag, no other row and nothing
    else of the state changes, and the record is counted. *)
Theorem toggle_saves_is_active_only db_accepts self request queryset active st0
    obj count st count' st' :
  activation_step db_accepts active obj count st = (Ret count', st') →
  _set_objects_active db_accepts self request queryset active st0 =
    match for_loop (activation_step db_accepts active)
                   (rows_of queryset (db st0)) 0%Z st0 with
    | (Ret n, st1) =>
        (Ret tt, mkState (db st1) (messages st1 ++ [status_message self active n])
                   (m2m_saved st1))
    | (Raise e, st1) => (Raise e, set_db (db st0) st1)
    end
  ∧ ∃ k row,
      pk obj = Some k ∧ db st !! k = Some row
      ∧ db st' !! k = Some (mkFields active (created_by row) (updated_by row)
                              (created_at row) (updated_at row) (extra row))
      ∧ (∀ k', k' ≠ k → db st' !! k' = db st !! k')
      ∧ messages st' = messages st ∧ m2m_saved st' = m2m_saved st
      ∧ count' = (count + 1)%Z.
Proof.
  intros Hstep. split; [apply set_objects_active_unfold|].
  rewrite activation_step_unfold in Hstep.
  destruct (pk obj) as [k|]; [|done].
  destruct (db st !! k) as [row|] eqn:Hrow; [|done].
  destruct (db_accepts k (set_is_active active row)); [|done].
  injection Hstep as <- <-. exists k, row. cbn [db set_db messages m2m_saved].
  rewrite lookup_insert_eq. repeat split; try done.
  intros k' Hne. by rewrite lookup_insert_ne.
Qed.

Lemma toggle_saves_is_active_only_witness :
  let stale := mkObj (Some 2%Z) (mkFields true (Some "eve") None None None "stale") in
  let st' := (activation_step accept_all false stale 0%Z scenario).2 in
  _set_objects_active accept_all things_admin operator [1; 2; 3]%Z false scenario =
    match for_loop (activation_step accept_all false)
                   (rows_of [1; 2; 3]%Z (db scenario)) 0%Z scenario with
    | (Ret n, st1) =>
        (Ret tt, mkState (db st1) (messages st1 ++ [status_message things_admin false n])
                   (m2m_saved st1))
    | (Raise e, st1) => (Raise e, set_db (db scenario) st1)
    end
  ∧ ∃ k row,
      pk stale = Some k ∧ db scenario !! k = Some row
      ∧ db st' !! k = Some (mkFields false (created_by row) (updated_by row)
                              (created_at row) (updated_at row) (extra row))
      ∧ (∀ k', k' ≠ k → db st' !! k' = db scenario !! k')
      ∧ messages st' = messages scenario ∧ m2m_saved st' = m2m_saved scenario
      ∧ 1%Z = (0 + 1)%Z.
Proof.
  intros stale st'.
  apply (toggle_saves_is_active_only accept_all things_admin operator [1; 2; 3]%Z
           false scenario stale 0%Z scenario 1%Z st').
  vm_compute. reflexivity.
Defined.

(** C7. A toggle that completes emits one message, made of the word
    [activated] or [deactivated], the count of the records it went through
    and the label of the record type in the number of that count; a toggle
    that raises emits none.  For the selection A (inactive), B (active),
    C (inactive) and the target [true], all three end active and the
    message is [Successfully activated 3 <plural label>.], which mentions
    [activated 3]. *)
Theorem toggle_status_message db_accepts self request selected active st :
  match _set_objects_active db_accepts self request selected active st with
  | (Ret _, st') =>
      let count := Z.of_nat (length (rows_of selected (db st))) in
      messages st' = messages st ++
        ["Successfully " +:+ (if active then "" else "de") +:+ "activated "
           +:+ pretty count +:+ " "
           +:+ (if (count =? 1)%Z then verbose_name (opts self)
                else verbose_name_plural (opts self)) +:+ "."]
  | (Raise _, st') => messages st' = messages st
  end
  ∧ ∃ st3,
      _set_objects_active accept_all self request [1; 2; 3]%Z true scenario = (Ret tt, st3)
      ∧ is_active <$> db st3 !! 1%Z = Some true
      ∧ is_active <$> db st3 !! 2%Z = Some true
      ∧ is_active <$> db st3 !! 3%Z = Some true
      ∧ messages st3 =
          ["Successfully activated 3 " +:+ verbose_name_plural (opts self) +:+ "."]
      ∧ ∃ before after, messages st3 = [before +:+ "activated 3" +:+ after].
Proof.
  split.
  - destruct (outcome_cases (_set_objects_active db_accepts self request selected active st))
      as [(u & st' & Hrun)|(e & st' & Hrun)]; rewrite Hrun.
    + by apply set_objects_active_ret_inv in Hrun as [_ ->].
    + by apply set_objects_active_raise_inv in Hrun as ->.
  - exists (_set_objects_active accept_all self request [1; 2; 3]%Z true scenario).2.
    destruct self as [[singular plural]]. destruct request as [u].
    repeat split; try (vm_compute; reflexivity).
    exists "Successfully ", (" " +:+ plural +:+ "."). vm_compute. reflexivity.
Qed.

(** ** The save hook *)

Lemma next_pk_above (t : Table) k : is_Some (t !! k) → (k < next_pk t)%Z.
Proof.
  unfold next_pk. intros Hk.
  cut (k ≤ map_fold (λ k _ m, Z.max k m) 0 t)%Z; [lia|]. revert k Hk.
  apply (map_fold_weak_ind (λ r (m : Table), ∀ k, is_Some (m !! k) → (k ≤ r)%Z)).
  - intros k [x Hx]. by rewrite lookup_empty in Hx.
  - intros i x m r _ IH k Hk. apply lookup_insert_is_Some in Hk as [->|[_ Hk]].
    + lia.
    + specialize (IH k Hk). lia.
Qed.

Lemma next_pk_fresh (t : Table) : t !! next_pk t = None.
Proof.
  destruct (t !! next_pk t) eqn:Hk; [|done].
  assert (next_pk t < next_pk t)%Z by (apply next_pk_above; eauto). lia.
Qed.

Lemma update_instance_pk i u : pk (_update_instance i u) = pk i.
Proof. unfold _update_instance. by destruct (pk_is_falsy (pk i)). Qed.

Lemma update_instance_updated_by i u :
  updated_by (attrs (_update_instance i u)) = Some u.
Proof. reflexivity. Qed.

Lemma update_instance_created_by i u :
  created_by (attrs (_update_instance i u)) =
    if pk_is_falsy (pk i) then Some u else created_by (attrs i).
Proof. unfold _update_instance. by destruct (pk_is_falsy (pk i)). Qed.

Lemma deletable_prefix_all objs :
  Forall (λ o, is_Some (pk o)) objs → deletable_prefix objs = objs.
Proof.
  induction 1 as [|o objs [k Hk] _ IH]; [done|]. simpl. by rewrite Hk, IH.
Qed.

Lemma deletable_prefix_gone objs :
  deletable_prefix (with_pk None <$> objs) = [].
Proof. by destruct objs. Qed.


Lemma lookup_stamped_rows u instances : ∀ (t : Table) k row,
  stamped_rows u instances t !! k = Some row →
  t !! k = Some row ∨ ∃ i, i ∈ instances ∧ row = attrs (_update_instance i u).
Proof.
  unfold stamped_rows.
  induction instances as [|i instances IH]; intros t k row Hrow; [by left|].
  cbn [foldl] in Hrow. apply IH in Hrow as [Hrow|(i' & Hin & ->)].
  - apply lookup_insert_Some in Hrow as [[_ <-]|[_ Hrow]]; [|by left].
    right. exists i. split; [by left | done].
  - right. exists i'. split; [by right | done].
Qed.

Lemma for_each_nil {A} (body : A → M unit) st : for_each body [] st = (Ret tt, st).
Proof. reflexivity. Qed.

Lemma for_each_cons {A} (body : A → M unit) x xs st :
  for_each body (x :: xs) st =
    match body x st with
    | (Ret _, st') => for_each body xs st'
    | (Raise e, st') => (Raise e, st')
    end.
Proof.
  unfold for_each. cbn [for_loop]. unfold bind.
  by destruct (body x st) as [[[]|e] st'].
Qed.

Section SaveFacts.

Variable db_accepts : Z → Fields → bool.

Lemma save_step_unfold u i st :
  save_step db_accepts u i st =
    let k := default (next_pk (db st)) (pk i) in
    if db_accepts k (attrs (_update_instance i u))
    then (Ret tt, set_db (<[k := attrs (_update_instance i u)]> (db st)) st)
    else (Raise IntegrityError, st).
Proof.
  unfold save_step, obj_save, bind, db_write, ret.
  rewrite update_instance_pk. cbn zeta.
  by destruct (db_accepts _ _).
Qed.

Lemma delete_step_unfold o st :
  delete_step o st =
    match pk o with
    | Some k => (Ret tt, set_db (delete k (db st)) st)
    | None => (Raise AssertionError, st)
    end.
Proof. unfold delete_step, obj_delete, bind, raise, ret. by destruct (pk o). Qed.

Lemma delete_loop_absorbed objs : ∀ st,
  except_AssertionError_pass (for_each delete_step objs) st
  = (Ret tt, set_db (without_rows (deletable_prefix objs) (db st)) st).
Proof.
  unfold except_AssertionError_pass.
  induction objs as [|o objs IH]; intros st.
  - rewrite for_each_nil. unfold without_rows. simpl. by rewrite set_db_same.
  - rewrite for_each_cons, delete_step_unfold. cbn [deletable_prefix].
    destruct (pk o) as [k|] eqn:Hpk.
    + rewrite IH. cbn [db set_db]. rewrite set_db_twice.
      unfold without_rows. cbn [omap list_omap]. by rewrite Hpk.
    + unfold without_rows. simpl. by rewrite set_db_same.
Qed.

Lemma delete_all_ret objs : ∀ st,
  Forall (λ o, is_Some (pk o)) objs →
  delete_all objs st =
    (Ret (with_pk None <$> objs), set_db (without_rows objs (db st)) st).
Proof.
  induction objs as [|o objs IH]; intros st Hall.
  - unfold without_rows. simpl. unfold ret. by rewrite set_db_same.
  - apply Forall_cons in Hall as [[k Hk] Hall].
    cbn [delete_all]. unfold bind at 1. unfold obj_delete. rewrite Hk.
    unfold bind at 1. rewrite IH by done. unfold ret.
    cbn [db set_db]. rewrite set_db_twice.
    unfold without_rows. cbn [omap list_omap]. by rewrite Hk.
Qed.

Lemma save_loop_cases u instances : ∀ st,
  for_each (save_step db_accepts u) instances st
    = (Ret tt, set_db (stamped_rows u instances (db st)) st)
  ∨ ∃ st', for_each (save_step db_accepts u) instances st
           = (Raise IntegrityError, st')
           ∧ m2m_saved st' = m2m_saved st.
Proof.
  induction instances as [|i instances IH]; intros st.
  - left. rewrite for_each_nil. unfold stamped_rows. simpl.
    by rewrite set_db_same.
  - rewrite for_each_cons, save_step_unfold. cbn zeta.
    destruct (db_accepts _ _) eqn:Hacc; [|right; by eexists].
    destruct (IH (set_db (<[default (next_pk (db st)) (pk i)
                            := attrs (_update_instance i u)]> (db st)) st))
      as [Hret|(st' & Hraise & Hm2m)].
    + left. rewrite Hret. by rewrite set_db_twice.
    + right. exists st'. by rewrite Hraise.
Qed.

Lemma save_loop_total u instances : ∀ st,
  (∀ k row, db_accepts k row = true) →
  for_each (save_step db_accepts u) instances st
    = (Ret tt, set_db (stamped_rows u instances (db st)) st).
Proof.
  intros st Hacc. revert st.
  induction instances as [|i instances IH]; intros st.
  - rewrite for_each_nil. unfold stamped_rows. simpl. by rewrite set_db_same.
  - rewrite for_each_cons, save_step_unfold. cbn zeta. rewrite Hacc, IH.
    by rewrite set_db_twice.
Qed.

(** [save_formset], once [formset.save(commit=False)] has returned: the
    deletions that can be done are done, the exception of the first one
    that cannot is dropped, and the saves follow. *)
Lemma save_formset_unfold self request form formset change st :
  save_formset db_accepts self request form formset change st =
    match formset_save_uncommitted formset st with
    | (Ret (instances, formset'), st1) =>
        match for_each (save_step db_accepts (user request)) instances
                (set_db (without_rows (deletable_prefix (deleted_objects formset'))
                           (db st1)) st1) with
        | (Ret _, st2) => (Ret tt, mkState (db st2) (messages st2) (S (m2m_saved st2)))
        | (Raise e, st2) => (Raise e, st2)
        end
    | (Raise e, st1) => (Raise e, st1)
    end.
Proof.
  unfold save_formset. unfold bind at 1.
  destruct (formset_save_uncommitted formset st) as [[[instances formset']|e] st1];
    [|done].
  cbn [fst snd]. unfold bind at 1.
  change (for_each (λ obj, _) (deleted_objects formset'))
    with (for_each delete_step (deleted_objects formset')).
  rewrite delete_loop_absorbed. unfold bind at 1.
  change (for_each (λ instance, _) instances)
    with (for_each (save_step db_accepts (user request)) instances).
  by destruct (for_each _ _ _) as [[[]|e] st2].
Qed.

Lemma formset_save_uncommitted_ret formset st :
  Forall (λ o, is_Some (pk o)) (deleted_objects formset) →
  ∃ formset',
    formset_save_uncommitted formset st =
      (Ret (instances_of formset, formset'),
       set_db (without_rows
                 (if deletes_on_save formset then deleted_objects formset else [])
                 (db st)) st)
    ∧ deletable_prefix (deleted_objects formset') =
        if deletes_on_save formset then [] else deleted_objects formset.
Proof.
  intros Hall. unfold formset_save_uncommitted.
  destruct (deletes_on_save formset).
  - eexists. unfold bind. rewrite delete_all_ret by done. unfold ret.
    split; [done|]. cbn [deleted_objects]. apply deletable_prefix_gone.
  - exists formset. unfold ret, without_rows. simpl. rewrite set_db_same.
    split; [done|]. by apply deletable_prefix_all.
Qed.

End SaveFacts.

Lemma without_rows_nil (t : Table) : without_rows [] t = t.
Proof. reflexivity. Qed.

Lemma delete_loop_raises objs : ∀ st,
  Exists (λ o, pk o = None) objs →
  for_each delete_step objs st =
    (Raise AssertionError,
     set_db (without_rows (deletable_prefix objs) (db st)) st).
Proof.
  induction objs as [|o objs IH]; intros st Hex; [by apply Exists_nil in Hex|].
  rewrite for_each_cons, delete_step_unfold. cbn [deletable_prefix].
  destruct (pk o) as [k|] eqn:Hpk.
  - apply Exists_cons in Hex as [Hnone|Hex]; [congruence|].
    rewrite IH by done. cbn [db set_db]. rewrite set_db_twice.
    unfold without_rows. cbn [omap list_omap]. by rewrite Hpk.
  - by rewrite without_rows_nil, set_db_same.
Qed.

Lemma save_hook_model db_accepts self request obj form change st :
  save_hook db_accepts self request (SaveModel obj form change) st =
    save_step db_accepts (user request) (form_instance form) st.
Proof.
  unfold save_hook, save_model, save_step, bind.
  by destruct (obj_save _ _ _ _) as [[o|e] st'].
Qed.

(** The table [save_formset] holds when it starts to save, and what it
    returns, for a formset whose objects marked for deletion all have a
    key. *)
Lemma save_formset_marked db_accepts self request form formset change st :
  Forall (λ o, is_Some (pk o)) (deleted_objects formset) →
  save_formset db_accepts self request form formset change st =
    match for_each (save_step db_accepts (user request)) (instances_of formset)
            (set_db (without_rows (deleted_objects formset) (db st)) st) with
    | (Ret _, st2) => (Ret tt, mkState (db st2) (messages st2) (S (m2m_saved st2)))
    | (Raise e, st2) => (Raise e, st2)
    end.
Proof.
  intros Hall. rewrite save_formset_unfold.
  destruct (formset_save_uncommitted_ret formset st Hall) as (fs' & -> & ->).
  cbn [db set_db]. rewrite set_db_twice.
  by destruct (deletes_on_save formset).
Qed.

Lemma update_instance_attrs i u :
  attrs (_update_instance i u) = stamped_fields u i.
Proof.
  unfold _update_instance, stamped_fields. destruct i as [[k|] a]; cbn; [|done].
  by destruct (k =? 0)%Z.
Qed.


(** A row that is there stays there through the saves, as it is or
    replaced by a stamped instance. *)
Lemma stamped_rows_present u instances : ∀ (t : Table) k row,
  t !! k = Some row →
  ∃ row', stamped_rows u instances t !! k = Some row'
          ∧ (row' = row ∨ ∃ j, j ∈ instances ∧ row' = stamped_fields u j).
Proof.
  unfold stamped_rows.
  induction instances as [|i instances IH]; intros t k row Hrow; [by eauto|].
  cbn [foldl].
  destruct (decide (default (next_pk t) (pk i) = k)) as [Heq|Hne].
  - destruct (IH (<[default (next_pk t) (pk i) := attrs (_update_instance i u)]> t)
                k (attrs (_update_instance i u))) as (row' & Hrow' & Hor).
    { by rewrite Heq, lookup_insert_eq. }
    exists row'. split; [done|]. right. destruct Hor as [->|(j & Hj & ->)].
    + exists i. split; [by left | apply update_instance_attrs].
    + exists j. split; [by right | done].
  - destruct (IH (<[default (next_pk t) (pk i) := attrs (_update_instance i u)]> t)
                k row) as (row' & Hrow' & Hor).
    { by rewrite lookup_insert_ne. }
    exists row'. split; [done|]. destruct Hor as [->|(j & Hj & ->)]; [by left|].
    right. exists j. split; [by right | done].
Qed.

(** Every instance is saved: at its key, or at a key that was free if it
    has none, there is a stamped instance afterwards. *)
Lemma stamped_rows_saved u instances : ∀ (t : Table) i,
  i ∈ instances →
  ∃ k j, (pk i = Some k ∨ (pk i = None ∧ t !! k = None))
         ∧ j ∈ instances
         ∧ stamped_rows u instances t !! k = Some (stamped_fields u j).
Proof.
  induction instances as [|i0 instances IH]; intros t i Hin;
    [by apply elem_of_nil in Hin|].
  set (k0 := default (next_pk t) (pk i0)).
  set (t1 := <[k0 := attrs (_update_instance i0 u)]> t).
  assert (stamped_rows u (i0 :: instances) t = stamped_rows u instances t1) as ->
    by done.
  apply elem_of_cons in Hin as [->|Hin].
  - destruct (stamped_rows_present u instances t1 k0 (attrs (_update_instance i0 u)))
      as (row' & Hrow' & Hor); [by apply lookup_insert_eq|].
    exists k0. destruct Hor as [->|(j & Hj & ->)].
    + exists i0. split; [|split; [by left | by rewrite <-update_instance_attrs]].
      unfold k0. destruct (pk i0); [by left|]. right. split; [done|].
      apply next_pk_fresh.
    + exists j. split; [|split; [by right | done]].
      unfold k0. destruct (pk i0); [by left|]. right. split; [done|].
      apply next_pk_fresh.
  - destruct (IH t1 i Hin) as (k & j & Hkey & Hj & Hrow).
    exists k, j. split; [|split; [by right | done]].
    destruct Hkey as [?|[Hnone Hfree]]; [by left|]. right. split; [done|].
    unfold t1 in Hfree. by apply lookup_insert_None in Hfree as [? _].
Qed.

Lemma lookup_stamped_fields u instances (t : Table) k row :
  stamped_rows u instances t !! k = Some row →
  t !! k = Some row ∨ ∃ i, i ∈ instances ∧ row = stamped_fields u i.
Proof.
  intros [?|(i & Hin & ->)]%lookup_stamped_rows; [by left|].
  right. exists i. by rewrite update_instance_attrs.
Qed.






(** When the store takes every row, the save hook returns. *)
Lemma save_hook_returns db_accepts self request call st :
  (∀ k row, db_accepts k row = true) →
  Forall (λ o, is_Some (pk o)) (deleted_by call) →
  ∃ st', save_hook db_accepts self request call st = (Ret tt, st').
Proof.
  intros Hacc Hmarked. destruct call as [obj form change|form formset change].
  - rewrite save_hook_model, save_step_unfold. cbn zeta. rewrite Hacc. eauto.
  - cbn [save_hook]. rewrite save_formset_marked by done.
    rewrite save_loop_total by done. eauto.
Qed.

(** C9. When [save_formset] is asked to delete an object that has been
    deleted already (it has no primary key any more), the delete raises
    [AssertionError] and [save_formset] drops it: what [save_formset]
    does from there is what the saves of the instances and [save_m2m] do
    on the table the deletions before it left.  When it returns, every
    instance is in the table, stamped ([updated_by] is the acting user),
    at its key or at a key that was free, and the table holds nothing else
    that was not there; and it returns whenever the store takes every
    row. *)
Theorem save_formset_absorbs_second_delete db_accepts self request form formset
    change st instances formset' st1 :
  formset_save_uncommitted formset st = (Ret (instances, formset'), st1) →
  Exists (λ o, pk o = None) (deleted_objects formset') →
  let u := user request in
  let kept := without_rows (deletable_prefix (deleted_objects formset')) (db st1) in
  for_each delete_step (deleted_objects formset') st1
    = (Raise AssertionError, set_db kept st1)
  ∧ save_formset db_accepts self request form formset change st
    = (let! _ := for_each (save_step db_accepts u) instances in save_m2m formset')
        (set_db kept st1)
  ∧ (∀ st', save_formset db_accepts self request form formset change st = (Ret tt, st') →
       m2m_saved st' = S (m2m_saved st1)
       ∧ (∀ k row, db st' !! k = Some row →
            kept !! k = Some row
            ∨ ∃ i, i ∈ instances ∧ row = stamped_fields u i ∧ updated_by row = Some u)
       ∧ (∀ i, i ∈ instances →
            ∃ k j, (pk i = Some k ∨ (pk i = None ∧ kept !! k = None))
                   ∧ j ∈ instances
                   ∧ db st' !! k = Some (stamped_fields u j)))
  ∧ ((∀ k row, db_accepts k row = true) →
     ∃ st', save_formset db_accepts self request form formset change st = (Ret tt, st')).
Proof.
  intros Hsave Hgone u kept. split; [by apply delete_loop_raises|].
  rewrite save_formset_unfold, Hsave. fold u kept. split; [|split].
  - unfold bind, save_m2m.
    by destruct (for_each _ _ _) as [[[]|e] st2].
  - intros st' Hrun.
    destruct (save_loop_cases db_accepts u instances (set_db kept st1))
      as [Hret|(st2 & Hraise & _)]; [|by rewrite Hraise in Hrun].
    rewrite Hret in Hrun. injection Hrun as <-. cbn [db set_db m2m_saved].
    split; [done|]. split.
    + intros k row [?|(i & Hi & ->)]%lookup_stamped_fields; [by left|].
      right. by exists i.
    + intros i Hi. by apply stamped_rows_saved.
  - intros Hacc. rewrite save_loop_total by done. eauto.
Qed.

Lemma save_formset_absorbs_second_delete_witness :
  let formset := sample_formset true in
  let gone := with_pk None <$> sample_marked in
  let st1 := set_db (without_rows sample_marked (db scenario)) scenario in
  let u := user operator in
  let kept := without_rows (deletable_prefix gone) (db st1) in
  let run := save_formset accept_all things_admin operator sample_form formset true
               scenario in
  for_each delete_step gone st1 = (Raise AssertionError, set_db kept st1)
  ∧ run = (let! _ := for_each (save_step accept_all u) sample_instances in
           save_m2m (mkFormSet sample_instances gone true)) (set_db kept st1)
  ∧ (∀ st', run = (Ret tt, st') →
       m2m_saved st' = S (m2m_saved st1)
       ∧ (∀ k row, db st' !! k = Some row →
            kept !! k = Some row
            ∨ ∃ i, i ∈ sample_instances ∧ row = stamped_fields u i
                   ∧ updated_by row = Some u)
       ∧ (∀ i, i ∈ sample_instances →
            ∃ k j, (pk i = Some k ∨ (pk i = None ∧ kept !! k = None))
                   ∧ j ∈ sample_instances
                   ∧ db st' !! k = Some (stamped_fields u j)))
  ∧ ((∀ k row, accept_all k row = true) → ∃ st', run = (Ret tt, st')).
Proof.
  intros formset gone st1.
  apply (save_formset_absorbs_second_delete accept_all things_admin operator
           sample_form formset true scenario sample_instances
           (mkFormSet sample_instances gone true) st1).
  - vm_compute. reflexivity.
  - left. reflexivity.
Defined.

(** ** The list of actions *)

Lemma filter_absent_key {V} (key : string) (d : list (string * V)) :
  dict_contains key d = false → filter (λ kv, kv.1 ≠ key) d = d.
Proof.
  unfold dict_contains. induction d as [|[k v] d IH]; [done|]. simpl.
  intros [Hk Hd]%orb_false_elim. apply String.eqb_neq in Hk.
  rewrite filter_cons_True by done. by rewrite IH.
Qed.

(** C10. [get_actions] gives the actions of the host without
    [delete_selected] when the user of the request may not delete, and
    the actions of the host as they are when the user may: every other
    action (such as [activate_objects] and [deactivate_objects]) stays, in
    its place, and [delete_selected] goes exactly in the first case. *)
Theorem get_actions_delete_selected {Action : Type}
    (super_get_actions : Request → list (string * Action))
    (has_delete_permission : Request → bool) (request : Request) :
  let actions := super_get_actions request in
  let others := filter (λ kv, kv.1 ≠ "delete_selected") actions in
  get_actions super_get_actions has_delete_permission request
    = inr (if has_delete_permission request then actions else others)
  ∧ (∀ name a, (name, a) ∈ others ↔ (name, a) ∈ actions ∧ name ≠ "delete_selected").
Proof.
  intros actions others. split.
  - unfold get_actions, dict_del. fold actions.
    destruct (has_delete_permission request); [done|]. simpl.
    destruct (dict_contains "delete_selected" actions) eqn:Hin; [done|].
    unfold others. by rewrite filter_absent_key.
  - intros name a. unfold others. rewrite list_elem_of_filter. simpl. tauto.
Qed.

Example get_actions_without_permission :
  get_actions (λ _, [("delete_selected", 0); ("activate_objects", 1);
                     ("deactivate_objects", 2)])
              (λ _, false) operator
  = inr [("activate_objects", 1); ("deactivate_objects", 2)].
Proof. reflexivity. Qed.

Example get_actions_with_permission :
  get_actions (λ _, [("delete_selected", 0); ("activate_objects", 1);
                     ("deactivate_objects", 2)])
              (λ _, true) operator
  = inr [("delete_selected", 0); ("activate_objects", 1); ("deactivate_objects", 2)].
Proof. reflexivity. Qed.

(** * Further properties of the code *)

(** ** More on the bulk toggle *)

Lemma toggle_ret_accepts db_accepts self request selected active st u st' :
  _set_objects_active db_accepts self request selected active st = (Ret u, st') →
  ∀ k row, k ∈ selected → db st !! k = Some row →
    db_accepts k (set_is_active active row) = true.
Proof.
  intros [Hall _]%set_objects_active_ret_inv k row Hin Hrow.
  rewrite Forall_forall in Hall.
  destruct (Hall (mkObj (Some k) row)) as (k' & row' & Hpk & Hrow' & Hacc).
  { apply elem_of_rows_of. by exists k, row. }
  simpl in Hpk. injection Hpk as <-. congruence.
Qed.

Lemma toggle_ret_of_accepts db_accepts self request selected active st :
  (∀ k row, k ∈ selected → db st !! k = Some row →
     db_accepts k (set_is_active active row) = true) →
  _set_objects_active db_accepts self request selected active st =
    (Ret tt, toggled self selected active st).
Proof.
  intros Hacc. apply set_objects_active_ret, Forall_forall.
  intros o (k & row & -> & Hin & Hrow)%elem_of_rows_of.
  exists k, row. eauto.
Qed.

(** X1. A toggle that returns has created no record and deleted none, and
    every row differs from what it was in [is_active] at most: the toggle
    does not stamp [updated_by] or any other field. *)
Theorem toggle_changes_flag_only db_accepts self request selected active st st' :
  _set_objects_active db_accepts self request selected active st = (Ret tt, st') →
  dom (db st') = dom (db st)
  ∧ ∀ k row', db st' !! k = Some row' →
      ∃ row, db st !! k = Some row
             ∧ created_by row' = created_by row ∧ updated_by row' = updated_by row
             ∧ created_at row' = created_at row ∧ updated_at row' = updated_at row
             ∧ extra row' = extra row.
Proof.
  intros [_ ->]%set_objects_active_ret_inv. split.
  - apply set_eq. intros k. rewrite !elem_of_dom, lookup_toggled.
    case_decide; [|done]. by rewrite fmap_is_Some.
  - intros k row'. rewrite lookup_toggled.
    destruct (db st !! k) as [row|]; [|by case_decide].
    exists row. split; [done|]. case_decide; by simplify_eq/=.
Qed.

Lemma toggle_changes_flag_only_witness :
  let st' := (_set_objects_active accept_all things_admin operator
                [1; 2; 3]%Z false scenario).2 in
  dom (db st') = dom (db scenario)
  ∧ ∀ k row', db st' !! k = Some row' →
      ∃ row, db scenario !! k = Some row
             ∧ created_by row' = created_by row ∧ updated_by row' = updated_by row
             ∧ created_at row' = created_at row ∧ updated_at row' = updated_at row
             ∧ extra row' = extra row.
Proof.
  apply (toggle_changes_flag_only accept_all things_admin operator
           [1; 2; 3]%Z false scenario).
  vm_compute. reflexivity.
Defined.

(** X2. The count in the message is the number of distinct selected keys
    that have a row: a key given twice is counted once, and a key without
    row is skipped, without error. *)
Theorem toggle_counts_rows db_accepts self request selected active st st' :
  _set_objects_active db_accepts self request selected active st = (Ret tt, st') →
  messages st' = messages st ++
    [status_message self active
       (Z.of_nat (length (filter (λ k, is_Some (db st !! k)) (remove_dups selected))))].
Proof.
  intros [_ ->]%set_objects_active_ret_inv. cbn [toggled messages].
  do 4 f_equal. rewrite <-length_keys_rows_of.
  apply Permutation_length, NoDup_Permutation.
  - apply NoDup_keys_rows_of.
  - apply NoDup_filter, NoDup_remove_dups.
  - intros k. rewrite elem_of_keys_rows_of, list_elem_of_filter, elem_of_remove_dups.
    tauto.
Qed.

Lemma toggle_counts_rows_witness :
  let st' := (_set_objects_active accept_all things_admin operator
                [1; 7; 1; 3]%Z true scenario).2 in
  messages st' = messages scenario ++
    [status_message things_admin true
       (Z.of_nat (length (filter (λ k, is_Some (db scenario !! k))
                            (remove_dups [1; 7; 1; 3]%Z))))].
Proof.
  apply (toggle_counts_rows accept_all things_admin operator
           [1; 7; 1; 3]%Z true scenario).
  vm_compute. reflexivity.
Defined.

(** X3. The toggle returns exactly when the store takes the row with the
    new flag of every selected record that has a row. *)
Theorem toggle_returns_iff db_accepts self request selected active st :
  (∃ st', _set_objects_active db_accepts self request selected active st = (Ret tt, st'))
  ↔ (∀ k row, k ∈ selected → db st !! k = Some row →
       db_accepts k (set_is_active active row) = true).
Proof.
  split.
  - intros [st' Hrun]. by eapply toggle_ret_accepts.
  - intros Hacc. eexists. by apply toggle_ret_of_accepts.
Qed.

Lemma loop_raise_inv db_accepts active objs : ∀ c st e st',
  Forall (λ o, ∃ k, pk o = Some k ∧ is_Some (db st !! k)) objs →
  for_loop (activation_step db_accepts active) objs c st = (Raise e, st') →
  Exists (λ o, ∃ k row, pk o = Some k ∧ db st !! k = Some row
                        ∧ db_accepts k (set_is_active active row) = false) objs.
Proof.
  induction objs as [|o objs IH]; intros c st e st' Hall Hrun; [done|].
  apply Forall_cons in Hall as [(k & Hpk & [row Hrow]) Hall].
  simpl in Hrun. unfold bind in Hrun.
  rewrite activation_step_unfold, Hpk, Hrow in Hrun.
  destruct (db_accepts k (set_is_active active row)) eqn:Hacc;
    [|apply Exists_cons_hd; by exists k, row].
  apply Exists_cons_tl. apply IH in Hrun.
  - eapply Exists_impl; [exact Hrun|].
    intros o' (k' & row' & Hpk' & Hrow' & Hrej). cbn [db set_db] in Hrow'.
    destruct (decide (k = k')) as [<-|Hne].
    + rewrite lookup_insert_eq in Hrow'. injection Hrow' as <-.
      rewrite set_is_active_idem in Hrej. congruence.
    + rewrite lookup_insert_ne in Hrow' by done. by exists k', row'.
  - eapply Forall_impl; [exact Hall|].
    intros o' (k' & Hpk' & Hsome). exists k'. split; [done|]. cbn [db set_db].
    rewrite lookup_insert_is_Some. destruct (decide (k = k')); auto.
Qed.

(** X4. The toggle raises only when the store has refused the row of a
    selected record, and then the state is the one it found: the rows it
    has loaded are found again by the partial save, and the message always
    formats. *)
Theorem toggle_raises_on_refusal_only db_accepts self request selected active st e st' :
  _set_objects_active db_accepts self request selected active st = (Raise e, st') →
  st' = st
  ∧ ∃ k row, k ∈ selected ∧ db st !! k = Some row
             ∧ db_accepts k (set_is_active active row) = false.
Proof.
  intros Hrun. split; [by eapply set_objects_active_raise_inv|].
  rewrite set_objects_active_unfold in Hrun.
  destruct (for_loop _ _ _ _) as [[count|e1] st1] eqn:Hloop; [done|].
  apply loop_raise_inv in Hloop.
  - apply Exists_exists in Hloop as (o & Hin & k & row & Hpk & Hrow & Hrej).
    apply elem_of_rows_of in Hin as (k' & row' & -> & Hsel & _).
    simpl in Hpk. injection Hpk as ->. by exists k, row.
  - apply Forall_forall. intros o (k & row & -> & _ & Hrow)%elem_of_rows_of.
    exists k. eauto.
Qed.

Lemma toggle_raises_on_refusal_only_witness :
  let r := _set_objects_active (λ k _, negb (k =? 1)%Z) things_admin operator
             [1; 2; 3]%Z true scenario in
  r.2 = scenario
  ∧ ∃ k row, k ∈ [1; 2; 3]%Z ∧ db scenario !! k = Some row
             ∧ (λ k _, negb (k =? 1)%Z) k (set_is_active true row) = false.
Proof.
  intros r.
  apply (toggle_raises_on_refusal_only (λ k _, negb (k =? 1)%Z) things_admin
           operator [1; 2; 3]%Z true scenario IntegrityError r.2).
  vm_compute. reflexivity.
Defined.

(** X5. The last toggle wins: after the toggle of a selection to one
    state and then to another, the table is the one the second toggle
    alone leaves (idempotence and the inverse toggle are instances). *)
Theorem toggle_last_wins db_accepts self request selected active1 active2 st st1 st2 :
  _set_objects_active db_accepts self request selected active1 st = (Ret tt, st1) →
  _set_objects_active db_accepts self request selected active2 st1 = (Ret tt, st2) →
  ∃ st2', _set_objects_active db_accepts self request selected active2 st = (Ret tt, st2')
          ∧ db st2' = db st2.
Proof.
  intros Hrun1 Hrun2.
  pose proof (toggle_ret_accepts _ _ _ _ _ _ _ _ Hrun2) as Hacc2.
  apply set_objects_active_ret_inv in Hrun1 as [_ ->].
  apply set_objects_active_ret_inv in Hrun2 as [_ ->].
  eexists. split.
  - apply toggle_ret_of_accepts. intros k row Hin Hrow.
    apply (Hacc2 k (set_is_active active1 row) Hin).
    by rewrite lookup_toggled, decide_True, Hrow.
  - apply map_eq. intros k. rewrite !lookup_toggled.
    destruct (decide (k ∈ selected)); [|done]. by destruct (db st !! k).
Qed.

Lemma toggle_last_wins_witness :
  let run := _set_objects_active accept_all things_admin operator [1; 2; 3]%Z in
  ∃ st2', run false scenario = (Ret tt, st2')
          ∧ db st2' = db (run false (run true scenario).2).2.
Proof.
  intros run.
  apply (toggle_last_wins accept_all things_admin operator [1; 2; 3]%Z true false
           scenario (run true scenario).2 (run false (run true scenario).2).2).
  - vm_compute. reflexivity.
  - vm_compute. reflexivity.
Defined.

(** X6. Toggles to the same state add up: the toggle of one selection
    followed by the toggle of another leaves the table that one toggle of
    both selections together leaves. *)
Theorem toggle_union db_accepts self request selected1 selected2 active st st1 st2 :
  _set_objects_active db_accepts self request selected1 active st = (Ret tt, st1) →
  _set_objects_active db_accepts self request selected2 active st1 = (Ret tt, st2) →
  ∃ st', _set_objects_active db_accepts self request (selected1 ++ selected2) active st
           = (Ret tt, st')
         ∧ db st' = db st2.
Proof.
  intros Hrun1 Hrun2.
  pose proof (toggle_ret_accepts _ _ _ _ _ _ _ _ Hrun1) as Hacc1.
  pose proof (toggle_ret_accepts _ _ _ _ _ _ _ _ Hrun2) as Hacc2.
  apply set_objects_active_ret_inv in Hrun1 as [_ ->].
  apply set_objects_active_ret_inv in Hrun2 as [_ ->].
  eexists. split.
  - apply toggle_ret_of_accepts. intros k row Hin Hrow.
    destruct (decide (k ∈ selected1)) as [Hin1|Hout1]; [by eapply Hacc1|].
    apply elem_of_app in Hin as [?|Hin2]; [done|].
    apply (Hacc2 k row Hin2). by rewrite lookup_toggled, decide_False.
  - apply map_eq. intros k. rewrite !lookup_toggled.
    destruct (decide (k ∈ selected1)) as [Hin1|Hout1],
             (decide (k ∈ selected2)) as [Hin2|Hout2].
    + rewrite decide_True by (apply elem_of_app; auto). by destruct (db st !! k).
    + by rewrite decide_True by (apply elem_of_app; auto).
    + by rewrite decide_True by (apply elem_of_app; auto).
    + rewrite decide_False; [done|]. rewrite elem_of_app. tauto.
Qed.

Lemma toggle_union_witness :
  let run := λ selected, _set_objects_active accept_all things_admin operator selected true in
  ∃ st', run ([1; 2] ++ [2; 4])%Z scenario = (Ret tt, st')
         ∧ db st' = db (run [2; 4]%Z (run [1; 2]%Z scenario).2).2.
Proof.
  intros run.
  apply (toggle_union accept_all things_admin operator [1; 2]%Z [2; 4]%Z true
           scenario (run [1; 2]%Z scenario).2 (run [2; 4]%Z (run [1; 2]%Z scenario).2).2).
  - vm_compute. reflexivity.
  - vm_compute. reflexivity.
Defined.

(** X7. [activate_objects] followed by [deactivate_objects] on the same
    selection: every selected record is active in between and inactive at
    the end, whatever it was, and the two messages read
    [Successfully activated n <label>.] and
    [Successfully deactivated n <label>.] for the same count and label. *)
Theorem activate_then_deactivate db_accepts self request selected st st1 st2 :
  activate_objects db_accepts self request selected st = (Ret tt, st1) →
  deactivate_objects db_accepts self request selected st1 = (Ret tt, st2) →
  let n := Z.of_nat (length (rows_of selected (db st))) in
  (∀ k row, k ∈ selected → db st !! k = Some row →
     db st1 !! k = Some (set_is_active true row)
     ∧ db st2 !! k = Some (set_is_active false row))
  ∧ messages st2 = messages st ++
      ["Successfully activated " +:+ pretty n +:+ " "
         +:+ model_ngettext (opts self) n +:+ ".";
       "Successfully deactivated " +:+ pretty n +:+ " "
         +:+ model_ngettext (opts self) n +:+ "."].
Proof.
  intros Hrun1 Hrun2 n. unfold activate_objects in Hrun1.
  unfold deactivate_objects in Hrun2.
  apply set_objects_active_ret_inv in Hrun1 as [_ ->].
  apply set_objects_active_ret_inv in Hrun2 as [_ ->]. split.
  - intros k row Hin Hrow. rewrite !lookup_toggled, !decide_True, Hrow by done.
    done.
  - cbn [toggled messages db]. rewrite <-app_assoc. cbn [app]. do 3 f_equal.
    set (t1 := bulk_set true (omap pk (rows_of selected (db st))) (db st)).
    assert (length (rows_of selected t1) = length (rows_of selected (db st)))
      as ->; [|done].
    apply length_rows_of_same_keys. intros k. unfold t1.
    rewrite lookup_bulk_set. case_decide; [|done]. by rewrite fmap_is_Some.
Qed.

Lemma activate_then_deactivate_witness :
  let st1 := (activate_objects accept_all things_admin operator [1; 2; 3]%Z scenario).2 in
  let st2 := (deactivate_objects accept_all things_admin operator [1; 2; 3]%Z st1).2 in
  let n := Z.of_nat (length (rows_of [1; 2; 3]%Z (db scenario))) in
  (∀ k row, k ∈ [1; 2; 3]%Z → db scenario !! k = Some row →
     db st1 !! k = Some (set_is_active true row)
     ∧ db st2 !! k = Some (set_is_active false row))
  ∧ messages st2 = messages scenario ++
      ["Successfully activated " +:+ pretty n +:+ " "
         +:+ model_ngettext (opts things_admin) n +:+ ".";
       "Successfully deactivated " +:+ pretty n +:+ " "
         +:+ model_ngettext (opts things_admin) n +:+ "."].
Proof.
  intros st1 st2.
  apply (activate_then_deactivate accept_all things_admin operator [1; 2; 3]%Z
           scenario st1 st2).
  - vm_compute. reflexivity.
  - vm_compute. reflexivity.
Defined.

(** ** More on the save hook *)

(** X8. The last stamp wins: stamping an instance for one user and then
    for another gives what stamping for the second alone gives (so
    stamping twice for one user is stamping once), and a stamp leaves the
    key and every field but [created_by] and [updated_by] alone. *)
Theorem update_instance_last_wins i u1 u2 :
  _update_instance (_update_instance i u1) u2 = _update_instance i u2
  ∧ pk (_update_instance i u1) = pk i
  ∧ is_active (attrs (_update_instance i u1)) = is_active (attrs i)
  ∧ created_at (attrs (_update_instance i u1)) = created_at (attrs i)
  ∧ updated_at (attrs (_update_instance i u1)) = updated_at (attrs i)
  ∧ extra (attrs (_update_instance i u1)) = extra (attrs i).
Proof.
  unfold _update_instance. destruct i as [k a]. cbn [pk].
  destruct (pk_is_falsy k) eqn:Hk; cbn [pk with_attrs]; by rewrite Hk.
Qed.

(** X9. [save_model] on an instance without primary key adds a row and
    overwrites none: the key it returns was free, the table is the old one
    with the returned row at that key, and the row has the acting user as
    creator and as last editor and the submitted values elsewhere. *)
Theorem save_model_creates db_accepts self request obj form change st saved st' :
  pk (form_instance form) = None →
  save_model db_accepts self request obj form change st = (Ret saved, st') →
  ∃ k, pk saved = Some k
       ∧ db st !! k = None
       ∧ db st' = <[k := attrs saved]> (db st)
       ∧ attrs saved =
           set_updated_by (Some (user request))
             (set_created_by (Some (user request)) (attrs (form_instance form))).
Proof.
  intros Hnew. unfold save_model, obj_save, bind, db_write, ret.
  rewrite update_instance_pk, Hnew. cbn [default].
  destruct (db_accepts _ _); [|done]. intros [= <- <-].
  exists (next_pk (db st)). split; [done|]. split; [apply next_pk_fresh|].
  split; [done|]. cbn [attrs with_pk]. unfold _update_instance.
  by rewrite Hnew.
Qed.

Lemma save_model_creates_witness :
  let form := mkForm (mkObj None (row_of true "N")) in
  let r := save_model accept_all things_admin operator (form_instance form) form
             false scenario in
  ∃ k, pk (mkObj (Some 5%Z) (mkFields true (Some "bob") (Some "bob") None None "N"))
         = Some k
       ∧ db scenario !! k = None
       ∧ db r.2 = <[k := mkFields true (Some "bob") (Some "bob") None None "N"]>
                    (db scenario)
       ∧ mkFields true (Some "bob") (Some "bob") None None "N" =
           set_updated_by (Some (user operator))
             (set_created_by (Some (user operator)) (attrs (form_instance form))).
Proof.
  intros form r.
  apply (save_model_creates accept_all things_admin operator (form_instance form)
           form false scenario
           (mkObj (Some 5%Z) (mkFields true (Some "bob") (Some "bob") None None "N"))
           r.2).
  - reflexivity.
  - vm_compute. reflexivity.
Defined.

(** X10. The key 0 counts as no key for the stamp ([not instance.pk]):
    [save_model] on an instance with primary key 0 writes row 0 with the
    acting user as creator, whoever created it. *)
Theorem save_model_key_zero db_accepts self request obj form change st saved st' :
  pk (form_instance form) = Some 0%Z →
  save_model db_accepts self request obj form change st = (Ret saved, st') →
  pk saved = Some 0%Z
  ∧ db st' !! 0%Z = Some (attrs saved)
  ∧ created_by (attrs saved) = Some (user request)
  ∧ updated_by (attrs saved) = Some (user request).
Proof.
  intros Hzero. unfold save_model, obj_save, bind, db_write, ret.
  rewrite update_instance_pk, Hzero. cbn [default].
  destruct (db_accepts _ _); [|done]. intros [= <- <-].
  cbn [db set_db pk attrs with_pk]. rewrite lookup_insert_eq.
  repeat split; try done. rewrite update_instance_created_by. by rewrite Hzero.
Qed.

Lemma save_model_key_zero_witness :
  let form := mkForm (mkObj (Some 0%Z)
                        (mkFields true (Some "alice") (Some "alice") None None "Z")) in
  let r := save_model accept_all things_admin operator (form_instance form) form
             true scenario in
  let saved := mkObj (Some 0%Z) (mkFields true (Some "bob") (Some "bob") None None "Z") in
  pk saved = Some 0%Z
  ∧ db r.2 !! 0%Z = Some (attrs saved)
  ∧ created_by (attrs saved) = Some (user operator)
  ∧ updated_by (attrs saved) = Some (user operator).
Proof.
  intros form r saved.
  apply (save_model_key_zero accept_all things_admin operator (form_instance form)
           form true scenario saved r.2).
  - reflexivity.
  - vm_compute. reflexivity.
Defined.

Lemma for_each_app {A} (body : A → M unit) xs ys : ∀ st,
  for_each body (xs ++ ys) st =
    match for_each body xs st with
    | (Ret _, st') => for_each body ys st'
    | (Raise e, st') => (Raise e, st')
    end.
Proof.
  induction xs as [|x xs IH]; intros st; [done|].
  rewrite <-app_comm_cons, !for_each_cons.
  destruct (body x st) as [[[]|e] st1]; [apply IH | done].
Qed.

Lemma save_loop_accepted db_accepts u instances : ∀ st,
  (∀ i k, i ∈ instances → db_accepts k (attrs (_update_instance i u)) = true) →
  for_each (save_step db_accepts u) instances st
    = (Ret tt, set_db (stamped_rows u instances (db st)) st).
Proof.
  induction instances as [|i instances IH]; intros st Hacc.
  - rewrite for_each_nil. unfold stamped_rows. simpl. by rewrite set_db_same.
  - rewrite for_each_cons, save_step_unfold. cbn zeta.
    rewrite Hacc by (by left). rewrite IH; [by rewrite set_db_twice|].
    intros i' k Hin. apply Hacc. by right.
Qed.

(** X11. [save_formset] is not a transaction: when the store refuses an
    instance, [save_formset] raises [IntegrityError], the deletions and
    the saves of the instances before it stay in the table, the instances
    after it are not saved and [save_m2m] is not run. *)
Theorem save_formset_keeps_partial_saves db_accepts self request form formset
    change st before refused after :
  Forall (λ o, is_Some (pk o)) (deleted_objects formset) →
  instances_of formset = before ++ refused :: after →
  (∀ i k, i ∈ before →
     db_accepts k (attrs (_update_instance i (user request))) = true) →
  (∀ k, db_accepts k (attrs (_update_instance refused (user request))) = false) →
  save_formset db_accepts self request form formset change st =
    (Raise IntegrityError,
     mkState (stamped_rows (user request) before
                (without_rows (deleted_objects formset) (db st)))
             (messages st) (m2m_saved st)).
Proof.
  intros Hmarked Hsplit Hacc Hrej. rewrite save_formset_marked by done.
  rewrite Hsplit, for_each_app, save_loop_accepted by done.
  rewrite for_each_cons, save_step_unfold. cbn zeta. by rewrite Hrej.
Qed.

Lemma save_formset_keeps_partial_saves_witness :
  let refuse_alice := λ (_ : Z) (row : Fields),
        negb (bool_decide (created_by row = Some "alice")) in
  save_formset refuse_alice things_admin operator sample_form (sample_formset false)
    true scenario =
    (Raise IntegrityError,
     mkState (stamped_rows (user operator) [mkObj None (row_of true "N")]
                (without_rows (deleted_objects (sample_formset false)) (db scenario)))
             (messages scenario) (m2m_saved scenario)).
Proof.
  intros refuse_alice.
  apply (save_formset_keeps_partial_saves refuse_alice things_admin operator
           sample_form (sample_formset false) true scenario
           [mkObj None (row_of true "N")]
           (mkObj (Some 2%Z) (mkFields false (Some "alice") (Some "alice") None None "B2"))
           []).
  - repeat constructor; eexists; reflexivity.
  - reflexivity.
  - intros i k ->%list_elem_of_singleton. reflexivity.
  - intros k. reflexivity.
Defined.

(** X12. [save_formset] does the same on both kinds of host: for a formset
    whose objects marked for deletion have a key, it makes no difference
    whether [formset.save(commit=False)] has deleted them already. *)
Theorem save_formset_same_on_both_hosts db_accepts self request form instances
    marked change st :
  Forall (λ o, is_Some (pk o)) marked →
  save_formset db_accepts self request form (mkFormSet instances marked true) change st
  = save_formset db_accepts self request form (mkFormSet instances marked false) change st.
Proof. intros Hmarked. by rewrite !save_formset_marked. Qed.

Lemma save_formset_same_on_both_hosts_witness :
  save_formset accept_all things_admin operator sample_form
    (mkFormSet sample_instances sample_marked true) true scenario
  = save_formset accept_all things_admin operator sample_form
      (mkFormSet sample_instances sample_marked false) true scenario.
Proof.
  apply (save_formset_same_on_both_hosts accept_all things_admin operator sample_form
           sample_instances sample_marked true scenario).
  repeat constructor; eexists; reflexivity.
Defined.

Lemma deletable_prefix_cut before gone after :
  pk gone = None →
  deletable_prefix (before ++ gone :: after) = deletable_prefix before.
Proof.
  intros Hgone. induction before as [|o before IH]; simpl.
  - by rewrite Hgone.
  - destruct (pk o); [by rewrite IH | done].
Qed.

(** X13. The [try] is around the whole loop of deletions: on a host that
    leaves the deletions to [save_formset], an object without primary key
    among the marked ones ends the loop, and the objects listed after it
    are not deleted; [save_formset] does what it does for the objects
    listed before it alone. *)
Theorem save_formset_stops_deleting db_accepts self request form instances
    before gone after change st :
  pk gone = None →
  save_formset db_accepts self request form
    (mkFormSet instances (before ++ gone :: after) false) change st
  = save_formset db_accepts self request form
      (mkFormSet instances before false) change st.
Proof.
  intros Hgone. rewrite !save_formset_unfold.
  unfold formset_save_uncommitted, ret. cbn [deletes_on_save deleted_objects].
  by rewrite deletable_prefix_cut.
Qed.

Lemma save_formset_stops_deleting_witness :
  let gone := mkObj None (row_of false "A") in
  let kept := mkObj (Some 3%Z) (row_of false "C") in
  save_formset accept_all things_admin operator sample_form
    (mkFormSet [] ([] ++ gone :: [kept]) false) true scenario
  = save_formset accept_all things_admin operator sample_form
      (mkFormSet [] [] false) true scenario.
Proof.
  intros gone kept.
  apply (save_formset_stops_deleting accept_all things_admin operator sample_form
           [] [] gone [kept] true scenario).
  reflexivity.
Defined.

Lemma without_rows_keeps objs : ∀ (t : Table) k,
  Some k ∉ pk <$> objs → without_rows objs t !! k = t !! k.
Proof.
  unfold without_rows. induction objs as [|o objs IH]; intros t k Hout; [done|].
  rewrite fmap_cons, not_elem_of_cons in Hout. destruct Hout as [Hne Hout].
  cbn [omap list_omap]. destruct (pk o) as [k0|]; [|by apply IH].
  cbn [foldl]. rewrite IH by done. apply lookup_delete_ne. congruence.
Qed.

Lemma stamped_rows_keeps u instances : ∀ (t : Table) k row,
  t !! k = Some row → Some k ∉ pk <$> instances →
  stamped_rows u instances t !! k = Some row.
Proof.
  unfold stamped_rows.
  induction instances as [|i instances IH]; intros t k row Hrow Hout; [done|].
  rewrite fmap_cons, not_elem_of_cons in Hout. destruct Hout as [Hne Hout].
  cbn [foldl]. apply IH; [|done]. rewrite lookup_insert_ne; [done|].
  destruct (pk i) as [k0|]; simpl; [congruence|].
  intros <-. by rewrite next_pk_fresh in Hrow.
Qed.

(** X14. [save_formset] leaves alone what the formset does not name: a row
    whose key no marked object and no instance has is after a returned
    [save_formset] what it was (a new instance never takes the key of a
    row), and no message is emitted. *)
Theorem save_formset_frame db_accepts self request form formset change st st' k row :
  Forall (λ o, is_Some (pk o)) (deleted_objects formset) →
  save_formset db_accepts self request form formset change st = (Ret tt, st') →
  db st !! k = Some row →
  Some k ∉ pk <$> deleted_objects formset →
  Some k ∉ pk <$> instances_of formset →
  db st' !! k = Some row ∧ messages st' = messages st.
Proof.
  intros Hmarked Hrun Hrow Hunmarked Hunsaved.
  rewrite save_formset_marked in Hrun by done.
  destruct (save_loop_cases db_accepts (user request) (instances_of formset)
              (set_db (without_rows (deleted_objects formset) (db st)) st))
    as [Hret|(st2 & Hraise & _)].
  - rewrite Hret in Hrun. injection Hrun as <-. cbn [db messages set_db].
    split; [|done]. apply stamped_rows_keeps; [|done].
    by rewrite without_rows_keeps.
  - by rewrite Hraise in Hrun.
Qed.

Lemma save_formset_frame_witness :
  let st' := (save_formset accept_all things_admin operator sample_form
                (sample_formset false) true scenario).2 in
  db st' !! 4%Z = Some (row_of false "D") ∧ messages st' = messages scenario.
Proof.
  intros st'.
  apply (save_formset_frame accept_all things_admin operator sample_form
           (sample_formset false) true scenario st' 4%Z (row_of false "D")).
  - repeat constructor; eexists; reflexivity.
  - vm_compute. reflexivity.
  - vm_compute. reflexivity.
  - apply (bool_decide_unpack _). vm_compute. exact I.
  - apply (bool_decide_unpack _). vm_compute. exact I.
Defined.

(** ** More on the list of actions *)

Lemma filter_absent_name {V} (key : string) (d : list (string * V)) :
  key ∉ d.*1 → filter (λ kv, kv.1 ≠ key) d = d.
Proof.
  induction d as [|[k v] d IH]; [done|].
  rewrite fmap_cons, not_elem_of_cons. cbn [fst]. intros [Hne Hout].
  rewrite filter_cons_True by (cbn; congruence). by rewrite IH.
Qed.

Lemma dict_contains_elem_of {V} (key : string) (d : list (string * V)) :
  dict_contains key d = true ↔ key ∈ d.*1.
Proof.
  unfold dict_contains. induction d as [|[k v] d IH]; simpl.
  - split; [done | by intros ?%elem_of_nil].
  - rewrite orb_true_iff, IH, elem_of_cons, String.eqb_eq.
    split; intros [?|?]; auto.
Qed.

Lemma length_filter_unique_name {V} (key : string) (d : list (string * V)) :
  NoDup d.*1 → key ∈ d.*1 →
  S (length (filter (λ kv, kv.1 ≠ key) d)) = length d.
Proof.
  induction d as [|[k v] d IH]; intros Hnd Hin; [by apply elem_of_nil in Hin|].
  rewrite fmap_cons in Hnd, Hin. cbn [fst] in *.
  apply NoDup_cons in Hnd as [Hk Hnd].
  destruct (decide (k = key)) as [->|Hne].
  - rewrite filter_cons_False by (cbn; auto).
    by rewrite filter_absent_name.
  - rewrite filter_cons_True by done. cbn [length]. f_equal. apply IH; [done|].
    apply elem_of_cons in Hin as [?|?]; [congruence | done].
Qed.

(** X15. When the user may not delete and the host offers
    [delete_selected], [get_actions] takes exactly that one entry out: the
    result is one shorter, has no [delete_selected], and its names are
    still distinct.  When the host does not offer it, the guard keeps
    [del] from raising [KeyError] and the actions come back as they are. *)
Theorem get_actions_removes_one {Action : Type}
    (super_get_actions : Request → list (string * Action))
    (has_delete_permission : Request → bool) (request : Request) :
  NoDup (super_get_actions request).*1 →
  has_delete_permission request = false →
  ∃ actions,
    get_actions super_get_actions has_delete_permission request = inr actions
    ∧ ("delete_selected" ∉ actions.*1)
    ∧ NoDup (actions.*1)
    ∧ length actions =
        (if dict_contains "delete_selected" (super_get_actions request)
         then pred (length (super_get_actions request))
         else length (super_get_actions request)).
Proof.
  intros Hnd Hperm. unfold get_actions, dict_del. rewrite Hperm. simpl.
  destruct (dict_contains "delete_selected" (super_get_actions request)) eqn:Hin.
  - eexists. split; [done|]. split; [|split].
    + rewrite list_elem_of_fmap. intros ([k v] & Hk & [Hne _]%list_elem_of_filter).
      simpl in *. congruence.
    + eapply sublist_NoDup; [exact Hnd|]. apply fmap_sublist, sublist_filter.
    + apply dict_contains_elem_of in Hin.
      by rewrite <-(length_filter_unique_name "delete_selected" _ Hnd Hin).
  - eexists. split; [done|]. split; [|done].
    intros Hin'%dict_contains_elem_of. congruence.
Qed.

Lemma get_actions_removes_one_witness :
  let host := λ _ : Request, [("delete_selected", 0); ("activate_objects", 1);
                              ("deactivate_objects", 2)] in
  ∃ actions,
    get_actions host (λ _, false) operator = inr actions
    ∧ ("delete_selected" ∉ actions.*1)
    ∧ NoDup (actions.*1)
    ∧ length actions =
        (if dict_contains "delete_selected" (host operator)
         then pred (length (host operator))
         else length (host operator)).
Proof.
  intros host.
  apply (get_actions_removes_one host (λ _, false) operator).
  - apply (bool_decide_unpack _). vm_compute. exact I.
  - reflexivity.
Defined.

(** ** The duplicate action *)

(** X16. [duplicate] is not a transaction either: when [clone] raises on
    an object, [duplicate] raises the same exception, the objects after it
    are not cloned, and what the clones before it and the failing one did
    to the state stays. *)
Theorem duplicate_stops_at_failure (clone : Obj → M Obj) self request queryset st
    before object after st1 e st2 :
  rows_of queryset (db st) = before ++ object :: after →
  for_each (λ o, let! _ := clone o in ret tt) before st = (Ret tt, st1) →
  clone object st1 = (Raise e, st2) →
  duplicate clone self request queryset st = (Raise e, st2).
Proof.
  intros Hrows Hbefore Hfail. unfold duplicate, iterate. unfold bind at 1.
  rewrite Hrows, for_each_app, Hbefore, for_each_cons.
  unfold bind. by rewrite Hfail.
Qed.

Lemma duplicate_stops_at_failure_witness :
  let st1 := (sample_clone (mkObj (Some 3%Z) (row_of false "C")) scenario).2 in
  duplicate sample_clone things_admin operator [1; 2; 3]%Z scenario
    = (Raise ValueError, st1).
Proof.
  intros st1.
  apply (duplicate_stops_at_failure sample_clone things_admin operator [1; 2; 3]%Z
           scenario [mkObj (Some 3%Z) (row_of false "C")]
           (mkObj (Some 2%Z) (row_of true "B"))
           [mkObj (Some 1%Z) (row_of false "A")] st1 ValueError st1).
  - vm_compute. reflexivity.
  - vm_compute. reflexivity.
  - vm_compute. reflexivity.
Defined.

(** X17. [duplicate] on a selection that has no row in the table (the
    empty selection, or keys that are gone) calls [clone] on nothing and
    returns with the state as it was. *)
Theorem duplicate_nothing (clone : Obj → M Obj) self request queryset st :
  (∀ k, k ∈ queryset → db st !! k = None) →
  duplicate clone self request queryset st = (Ret tt, st).
Proof.
  intros Hnone. unfold duplicate, iterate. unfold bind at 1.
  assert (rows_of queryset (db st) = []) as ->; [|done].
  destruct (rows_of queryset (db st)) as [|o objs] eqn:Hrows; [done|].
  assert (o ∈ rows_of queryset (db st)) as Hin by (rewrite Hrows; by left).
  apply elem_of_rows_of in Hin as (k & row & _ & Hin & Hrow).
  by rewrite Hnone in Hrow.
Qed.

Lemma duplicate_nothing_witness :
  duplicate sample_clone things_admin operator [7; 9]%Z scenario = (Ret tt, scenario).
Proof.
  apply (duplicate_nothing sample_clone things_admin operator [7; 9]%Z scenario).
  apply Forall_forall. repeat constructor.
Defined.
